(** * Orbit viewers: camera, animation clock and draw traces

    A shallow embedding of the two viewers of the repository,
    [mgs_viewer_in_motion.py] (animated) and [mgs_viewer_in_static.py]
    (point cloud with velocity vectors).

    Numbers.  The Python code mixes [int] and [float].  Integers that stay
    integers (pointer coordinates, wheel deltas, the animation index, viewport
    sizes) are [Z].  Everything that becomes a [float] is a rational [Q]: the
    arithmetic is the exact one, binary64 rounding is not modelled, and
    numerical equality is [Qeq] ([==]).

    Failure.  A Python exception is a [Raise] in the [result] type; a method
    that the source can leave by an exception returns a [result].

    Drawing.  The OpenGL calls of a method are the list of [gl_cmd] it issues,
    in order.  Module [GL] gives the part of the fixed-function semantics the
    properties need: the matrix stacks and the primitives assembled between
    [glBegin] and [glEnd]. *)

From Stdlib Require Import ZArith QArith Qround Qreals Lqa Lia List Bool.
From Stdlib Require Import Reals Lra.
From Stdlib Require String.
Import ListNotations.

Local Open Scope Z_scope.
Local Open Scope Q_scope.

(** ** Exceptions *)

Inductive exn : Type :=
| AttributeError
| IndexError
| ZeroDivisionError
| ValueError.

Inductive result (A : Type) : Type :=
| Ok (a : A)
| Raise (e : exn).

Arguments Ok {A} a.
Arguments Raise {A} e.

Definition bind {A B : Type} (m : result A) (k : A -> result B) : result B :=
  match m with
  | Ok a => k a
  | Raise e => Raise e
  end.

Notation "x <- m ;; k" := (bind m (fun x => k))
  (at level 61, m at next level, right associativity).

(** ** Python operators and builtins *)

Module Py.

(** [a < b] on numbers. *)
Definition lt (a b : Q) : bool := negb (Qle_bool b a).

(** The builtin [max(a, b)]: the later argument replaces the earlier one
    only when it is strictly greater. *)
Definition max (a b : Q) : Q := if lt a b then b else a.

(** The builtin [min(a, b)]: the later argument replaces the earlier one
    only when it is strictly smaller. *)
Definition min (a b : Q) : Q := if lt b a then b else a.

(** True division [a / b]. *)
Definition truediv (a b : Q) : result Q :=
  if Qeq_bool b 0 then Raise ZeroDivisionError else Ok (a / b).

(** [a % b] on floats: the remainder has the sign of the divisor. *)
Definition mod_ (a b : Q) : result Q :=
  if Qeq_bool b 0 then Raise ZeroDivisionError
  else Ok (a - inject_Z (Qfloor (a / b)) * b).

(** [int(a)]: truncation toward zero. *)
Definition int (a : Q) : Z := Z.quot (Qnum a) (Zpos (Qden a)).

(** Truth value of an integer, as in [x if h else y]. *)
Definition truth (h : Z) : bool := negb (Z.eqb h 0).

(** [range(start, stop, step)] as the list of its elements.  [fuel] bounds
    the number of elements; [range] below supplies enough. *)
Fixpoint range_from (fuel : nat) (i stop step : Z) : list Z :=
  match fuel with
  | O => []
  | S fuel' =>
      if Z.ltb 0 step then
        if Z.ltb i stop then i :: range_from fuel' (i + step) stop step else []
      else
        if Z.ltb stop i then i :: range_from fuel' (i + step) stop step else []
  end.

Definition range (start stop step : Z) : result (list Z) :=
  if Z.eqb step 0 then Raise ValueError
  else Ok (range_from (Z.to_nat (Z.abs (stop - start))) start stop step).

(** [seq[i]] on a sequence: a negative index counts from the end. *)
Definition getitem {A : Type} (l : list A) (i : Z) : result A :=
  let n := Z.of_nat (length l) in
  let j := if Z.ltb i 0 then (i + n)%Z else i in
  if Z.ltb j 0 then Raise IndexError
  else match nth_error l (Z.to_nat j) with
       | Some a => Ok a
       | None => Raise IndexError
       end.

End Py.

(** A row of the position (or velocity) table: three numbers. *)
Definition vec3 : Type := (Q * Q * Q)%type.

(** [v * k] and [u + v] on rows, and [-v], as numpy computes them. *)
Definition vscale (v : vec3) (k : Q) : vec3 :=
  let '(x, y, z) := v in (x * k, y * k, z * k).

Definition vadd (u v : vec3) : vec3 :=
  let '(x, y, z) := u in
  let '(a, b, c) := v in (x + a, y + b, z + c).

Definition vneg (v : vec3) : vec3 :=
  let '(x, y, z) := v in (- x, - y, - z).

(** ** The fixed-function pipeline

    The calls the viewers make, and what they do to the matrix stacks and to
    the primitives sent down the pipeline, after the OpenGL 1.x reference:
    [glTranslatef], [glRotatef] and [gluPerspective] multiply the current
    matrix on the right by the matrix they build; a vertex is transformed by
    the modelview matrix current when it is specified. *)

Module GL.

Inductive matrix_mode : Type := GL_PROJECTION | GL_MODELVIEW.
Inductive prim_mode : Type := GL_POINTS | GL_LINES | GL_LINE_STRIP.
Inductive draw_style : Type := GLU_LINE | GLU_FILL.

Inductive gl_cmd : Type :=
| glClear
| glViewport (x y w h : Z)
| glMatrixMode (m : matrix_mode)
| glLoadIdentity
| gluPerspective (fovy aspect zNear zFar : Q)
| glTranslatef (x y z : Q)
| glRotatef (angle x y z : Q)
| glPushMatrix
| glPopMatrix
| glColor3f (r g b : Q)
| glColor4f (r g b a : Q)
| glLineWidth (w : Q)
| glPointSize (s : Q)
| gluQuadricDrawStyle (s : draw_style)
| gluSphere (radius : Q) (slices stacks : Z)
| glBegin (m : prim_mode)
| glVertex3f (x y z : Q)
| glEnd.

Local Open Scope R_scope.

(** 4x4 matrices, as four rows, and homogeneous points. *)
Definition vec4 : Type := (R * R * R * R)%type.
Definition mat : Type := (vec4 * vec4 * vec4 * vec4)%type.

Definition dot (u v : vec4) : R :=
  let '(a, b, c, d) := u in
  let '(x, y, z, w) := v in
  a * x + b * y + c * z + d * w.

Definition transpose (m : mat) : mat :=
  let '((a00, a01, a02, a03), (a10, a11, a12, a13),
        (a20, a21, a22, a23), (a30, a31, a32, a33)) := m in
  ((a00, a10, a20, a30), (a01, a11, a21, a31),
   (a02, a12, a22, a32), (a03, a13, a23, a33)).

(** [m . v] *)
Definition mapply (m : mat) (v : vec4) : vec4 :=
  let '(r0, r1, r2, r3) := m in (dot r0 v, dot r1 v, dot r2 v, dot r3 v).

(** [a . b]: row [i] of the product is row [i] of [a] against the columns
    of [b]. *)
Definition mmul (a b : mat) : mat :=
  let bt := transpose b in
  let '(r0, r1, r2, r3) := a in
  (mapply bt r0, mapply bt r1, mapply bt r2, mapply bt r3).

Definition identity : mat :=
  ((1, 0, 0, 0), (0, 1, 0, 0), (0, 0, 1, 0), (0, 0, 0, 1)).

Definition translation (x y z : R) : mat :=
  ((1, 0, 0, x), (0, 1, 0, y), (0, 0, 1, z), (0, 0, 0, 1)).

Definition deg (a : R) : R := a * PI / 180.

(** The matrix of [glRotate(angle, x, y, z)]: a rotation by [angle] degrees
    about the axis [(x, y, z)], which is normalised first. *)
Definition rotation (angle x y z : R) : mat :=
  let n := sqrt (x * x + y * y + z * z) in
  let x := x / n in
  let y := y / n in
  let z := z / n in
  let c := cos (deg angle) in
  let s := sin (deg angle) in
  ((x * x * (1 - c) + c, x * y * (1 - c) - z * s, x * z * (1 - c) + y * s, 0),
   (y * x * (1 - c) + z * s, y * y * (1 - c) + c, y * z * (1 - c) - x * s, 0),
   (x * z * (1 - c) - y * s, y * z * (1 - c) + x * s, z * z * (1 - c) + c, 0),
   (0, 0, 0, 1)).

(** The matrix of [gluPerspective(fovy, aspect, zNear, zFar)]. *)
Definition perspective (fovy aspect zNear zFar : R) : mat :=
  let f := / tan (deg fovy / 2) in
  ((f / aspect, 0, 0, 0),
   (0, f, 0, 0),
   (0, 0, (zFar + zNear) / (zNear - zFar), 2 * zFar * zNear / (zNear - zFar)),
   (0, 0, -1, 0)).

(** Rotations about the coordinate axes, in degrees. *)
Definition Rx (angle : R) : mat :=
  let c := cos (deg angle) in
  let s := sin (deg angle) in
  ((1, 0, 0, 0), (0, c, - s, 0), (0, s, c, 0), (0, 0, 0, 1)).

Definition Ry (angle : R) : mat :=
  let c := cos (deg angle) in
  let s := sin (deg angle) in
  ((c, 0, s, 0), (0, 1, 0, 0), (- s, 0, c, 0), (0, 0, 0, 1)).

(** A point of the scene in homogeneous coordinates. *)
Definition point (v : vec3) : vec4 :=
  let '(x, y, z) := v in (Q2R x, Q2R y, Q2R z, 1).

(** What reaches the rasteriser: each vertex with the modelview matrix that
    transforms it, each quadric with the matrix that places it. *)
Definition placed : Type := (mat * vec3)%type.

Inductive item : Type :=
| Point (p : placed)
| Segment (p q : placed)
| Sphere (m : mat) (radius : Q) (slices stacks : Z).

Record state : Type := mkState {
  mode : matrix_mode;
  modelview : mat;
  projection : mat;
  modelview_stack : list mat;
  projection_stack : list mat;
  (* between glBegin and glEnd: the primitive type, and the vertex that
     waits for its partner *)
  assembling : option (prim_mode * option placed);
  drawn : list item
}.

Definition current (st : state) : mat :=
  match mode st with
  | GL_MODELVIEW => modelview st
  | GL_PROJECTION => projection st
  end.

Definition set_current (st : state) (m : mat) : state :=
  match mode st with
  | GL_MODELVIEW =>
      mkState (mode st) m (projection st) (modelview_stack st)
        (projection_stack st) (assembling st) (drawn st)
  | GL_PROJECTION =>
      mkState (mode st) (modelview st) m (modelview_stack st)
        (projection_stack st) (assembling st) (drawn st)
  end.

Definition push (st : state) : state :=
  match mode st with
  | GL_MODELVIEW =>
      mkState (mode st) (modelview st) (projection st)
        (modelview st :: modelview_stack st)
        (projection_stack st) (assembling st) (drawn st)
  | GL_PROJECTION =>
      mkState (mode st) (modelview st) (projection st) (modelview_stack st)
        (projection st :: projection_stack st) (assembling st) (drawn st)
  end.

(** Popping an empty stack is a GL error that leaves the state as it is. *)
Definition pop (st : state) : state :=
  match mode st with
  | GL_MODELVIEW =>
      match modelview_stack st with
      | m :: rest =>
          mkState (mode st) m (projection st) rest
            (projection_stack st) (assembling st) (drawn st)
      | [] => st
      end
  | GL_PROJECTION =>
      match projection_stack st with
      | m :: rest =>
          mkState (mode st) (modelview st) m (modelview_stack st)
            rest (assembling st) (drawn st)
      | [] => st
      end
  end.

Definition set_assembling (st : state)
    (a : option (prim_mode * option placed)) : state :=
  mkState (mode st) (modelview st) (projection st) (modelview_stack st)
    (projection_stack st) a (drawn st).

Definition emit (st : state) (a : option (prim_mode * option placed))
    (i : item) : state :=
  mkState (mode st) (modelview st) (projection st) (modelview_stack st)
    (projection_stack st) a (drawn st ++ [i]).

(** A vertex between [glBegin] and [glEnd]: a point on its own, the second
    end of a segment, or the next vertex of a strip. *)
Definition vertex (st : state) (v : vec3) : state :=
  let p := (modelview st, v) in
  match assembling st with
  | None => st
  | Some (GL_POINTS, w) => emit st (Some (GL_POINTS, w)) (Point p)
  | Some (GL_LINES, None) => set_assembling st (Some (GL_LINES, Some p))
  | Some (GL_LINES, Some q) => emit st (Some (GL_LINES, None)) (Segment q p)
  | Some (GL_LINE_STRIP, None) =>
      set_assembling st (Some (GL_LINE_STRIP, Some p))
  | Some (GL_LINE_STRIP, Some q) =>
      emit st (Some (GL_LINE_STRIP, Some p)) (Segment q p)
  end.

Definition exec1 (st : state) (c : gl_cmd) : state :=
  match c with
  | glMatrixMode m =>
      mkState m (modelview st) (projection st) (modelview_stack st)
        (projection_stack st) (assembling st) (drawn st)
  | glLoadIdentity => set_current st identity
  | gluPerspective fovy aspect zNear zFar =>
      set_current st
        (mmul (current st)
           (perspective (Q2R fovy) (Q2R aspect) (Q2R zNear) (Q2R zFar)))
  | glTranslatef x y z =>
      set_current st (mmul (current st) (translation (Q2R x) (Q2R y) (Q2R z)))
  | glRotatef a x y z =>
      set_current st
        (mmul (current st) (rotation (Q2R a) (Q2R x) (Q2R y) (Q2R z)))
  | glPushMatrix => push st
  | glPopMatrix => pop st
  | gluSphere radius slices stacks =>
      emit st (assembling st) (Sphere (modelview st) radius slices stacks)
  | glBegin m => set_assembling st (Some (m, None))
  | glVertex3f x y z => vertex st (x, y, z)
  | glEnd => set_assembling st None
  | glClear | glViewport _ _ _ _ | glColor3f _ _ _ | glColor4f _ _ _ _
  | glLineWidth _ | glPointSize _ | gluQuadricDrawStyle _ => st
  end.

Definition exec (st : state) (cs : list gl_cmd) : state :=
  fold_left exec1 cs st.

End GL.

Import GL.

(** ** Input events

    What the windowing toolkit delivers to a viewer: [wheelEvent] with the
    vertical wheel delta [event.angleDelta().y()], [mousePressEvent] and
    [mouseMoveEvent] with the pointer position [(event.x(), event.y())]. *)

Inductive event : Type :=
| Wheel (delta : Z)
| MousePress (x y : Z)
| MouseMove (x y : Z).

(** ** The animated viewer, [mgs_viewer_in_motion.py]

    [self.update()] only asks the toolkit for a repaint and touches no
    attribute of the viewer; it is left out.  A drawing method that raises
    yields no trace. *)

Module Motion.

Record Config : Type := mkConfig {
  time_speed : Q;
  mars_radius_km : Q;
  atmosphere_scale : Q;
  atmosphere_alpha : Q;
  spacecraft_scale : Q;
  sun_radius_km : Q;
  sun_distance_scale : Q;
  min_zoom : Q;
  max_zoom : Q;
  zoom_sensitivity : Q
}.

Definition CONFIG : Config := {|
  time_speed := 5.0;
  mars_radius_km := 3390;
  atmosphere_scale := 1.07;
  atmosphere_alpha := 0.12;
  spacecraft_scale := 150;
  sun_radius_km := 696000;
  sun_distance_scale := 1.0;
  min_zoom := 5000;
  max_zoom := 5e10;
  zoom_sensitivity := 0.002
|}.

(** The attributes of an [OrbitViewer].  [last_mouse] is [None] until
    [mousePressEvent] creates the attribute: [__init__] does not set it. *)
Record OrbitViewer : Type := mkViewer {
  xyz : list vec3;
  mars_sun : vec3;
  index : Z;
  rot_x : Q;
  rot_y : Q;
  zoom : Q;
  last_mouse : option (Z * Z)
}.

Definition set_index (self : OrbitViewer) (i : Z) : OrbitViewer :=
  mkViewer (xyz self) (mars_sun self) i (rot_x self) (rot_y self)
    (zoom self) (last_mouse self).

Definition set_rot_x (self : OrbitViewer) (r : Q) : OrbitViewer :=
  mkViewer (xyz self) (mars_sun self) (index self) r (rot_y self)
    (zoom self) (last_mouse self).

Definition set_rot_y (self : OrbitViewer) (r : Q) : OrbitViewer :=
  mkViewer (xyz self) (mars_sun self) (index self) (rot_x self) r
    (zoom self) (last_mouse self).

Definition set_zoom (self : OrbitViewer) (z : Q) : OrbitViewer :=
  mkViewer (xyz self) (mars_sun self) (index self) (rot_x self) (rot_y self)
    z (last_mouse self).

Definition set_last_mouse (self : OrbitViewer) (p : Z * Z) : OrbitViewer :=
  mkViewer (xyz self) (mars_sun self) (index self) (rot_x self) (rot_y self)
    (zoom self) (Some p).

(** [OrbitViewer.__init__] *)
Definition init (xyz : list vec3) (mars_sun : vec3) : OrbitViewer :=
  mkViewer xyz mars_sun 0%Z (-40) 30 35000 None.

Section Methods.

Variable cfg : Config.

Definition resizeGL (w h : Z) : result (list gl_cmd) :=
  aspect <- (if Py.truth h then Py.truediv (inject_Z w) (inject_Z h)
             else Ok 1) ;;
  Ok [glViewport 0 0 w h;
      glMatrixMode GL_PROJECTION;
      glLoadIdentity;
      gluPerspective 45 aspect 1000 1e10;
      glMatrixMode GL_MODELVIEW].

Definition draw_sun (self : OrbitViewer) : list gl_cmd :=
  let '(sx, sy, sz) := vscale (vneg (mars_sun self)) (sun_distance_scale cfg) in
  [glPushMatrix;
   glTranslatef sx sy sz;
   glColor3f 1.0 0.75 0.2;
   gluQuadricDrawStyle GLU_LINE;
   glLineWidth 1.5;
   gluSphere (sun_radius_km cfg) 48 48;
   glPopMatrix].

Definition draw_mars_wireframe : list gl_cmd :=
  [glPushMatrix;
   glColor3f 0.9 0.3 0.3;
   gluQuadricDrawStyle GLU_LINE;
   gluSphere (mars_radius_km cfg) 36 36;
   glPopMatrix].

Definition draw_mars_atmosphere : list gl_cmd :=
  [glPushMatrix;
   glColor4f 0.4 0.6 1.0 (atmosphere_alpha cfg);
   gluQuadricDrawStyle GLU_FILL;
   gluSphere (mars_radius_km cfg * atmosphere_scale cfg) 36 36;
   glPopMatrix].

Definition draw_trajectory (self : OrbitViewer) : list gl_cmd :=
  [glColor3f 0.3 0.8 1.0; glBegin GL_LINE_STRIP]
  ++ map (fun '(x, y, z) => glVertex3f x y z) (xyz self)
  ++ [glEnd].

Definition draw_spacecraft (self : OrbitViewer) : result (list gl_cmd) :=
  p <- Py.getitem (xyz self) (index self) ;;
  let '(x, y, z) := p in
  Ok [glPushMatrix;
      glTranslatef x y z;
      glColor3f 1.0 1.0 0.3;
      gluQuadricDrawStyle GLU_FILL;
      gluSphere (spacecraft_scale cfg) 16 16;
      glPopMatrix].

Definition paintGL (self : OrbitViewer) : result (list gl_cmd) :=
  spacecraft <- draw_spacecraft self ;;
  Ok ([glClear;
       glLoadIdentity;
       glTranslatef 0 0 (- zoom self);
       glRotatef (rot_x self) 1 0 0;
       glRotatef (rot_y self) 0 1 0]
      ++ draw_sun self
      ++ draw_mars_wireframe
      ++ draw_mars_atmosphere
      ++ draw_trajectory self
      ++ spacecraft).

Definition update_animation (self : OrbitViewer) : result OrbitViewer :=
  let i := inject_Z (index self) + time_speed cfg in
  i <- Py.mod_ i (inject_Z (Z.of_nat (length (xyz self)))) ;;
  Ok (set_index self (Py.int i)).

Definition wheelEvent (self : OrbitViewer) (delta : Z)
    : result OrbitViewer :=
  let zoom_step := 2000 in
  notches <- Py.truediv (inject_Z delta) 120 ;;
  let self := set_zoom self (zoom self - notches * zoom_step) in
  let self :=
    set_zoom self
      (Py.max (min_zoom cfg) (Py.min (zoom self) (max_zoom cfg))) in
  Ok self.

Definition mousePressEvent (self : OrbitViewer) (x y : Z)
    : result OrbitViewer :=
  Ok (set_last_mouse self (x, y)).

Definition mouseMoveEvent (self : OrbitViewer) (x y : Z)
    : result OrbitViewer :=
  match last_mouse self with
  | None => Raise AttributeError
  | Some (lx, ly) =>
      let dx := (x - lx)%Z in
      let dy := (y - ly)%Z in
      let self := set_last_mouse self (x, y) in
      let self := set_rot_x self (rot_x self + inject_Z dy * 0.4) in
      let self := set_rot_y self (rot_y self + inject_Z dx * 0.4) in
      Ok self
  end.

(** The toolkit's dispatch of one event, and of a sequence of events in
    arrival order; an exception ends the run. *)
Definition handle (self : OrbitViewer) (e : event) : result OrbitViewer :=
  match e with
  | Wheel delta => wheelEvent self delta
  | MousePress x y => mousePressEvent self x y
  | MouseMove x y => mouseMoveEvent self x y
  end.

Fixpoint run (self : OrbitViewer) (es : list event) : result OrbitViewer :=
  match es with
  | [] => Ok self
  | e :: es' => self' <- handle self e ;; run self' es'
  end.

(** [n] timer ticks in a row. *)
Fixpoint ticks (n : nat) (self : OrbitViewer) : result OrbitViewer :=
  match n with
  | O => Ok self
  | S n' => self' <- update_animation self ;; ticks n' self'
  end.

End Methods.

End Motion.

(** ** The static viewer, [mgs_viewer_in_static.py] *)

Module Static.

Record Config : Type := mkConfig {
  mars_radius_km : Q;
  atmosphere_scale : Q;
  atmosphere_alpha : Q;
  spacecraft_point_size : Q;
  velocity_scale : Q;
  velocity_stride : Z;
  sun_radius_km : Q;
  sun_distance_scale : Q;
  min_zoom : Q;
  max_zoom : Q
}.

Definition CONFIG : Config := {|
  mars_radius_km := 3390;
  atmosphere_scale := 1.07;
  atmosphere_alpha := 0.12;
  spacecraft_point_size := 4.0;
  velocity_scale := 3000;
  velocity_stride := 10;
  sun_radius_km := 696000;
  sun_distance_scale := 1.0;
  min_zoom := 5000;
  max_zoom := 5e10
|}.

(** The attributes of an [OrbitViewer]; [last_mouse] as in the animated
    viewer. *)
Record OrbitViewer : Type := mkViewer {
  pos : list vec3;
  vel : list vec3;
  mars_sun : vec3;
  rot_x : Q;
  rot_y : Q;
  zoom : Q;
  last_mouse : option (Z * Z)
}.

Definition set_rot_x (self : OrbitViewer) (r : Q) : OrbitViewer :=
  mkViewer (pos self) (vel self) (mars_sun self) r (rot_y self)
    (zoom self) (last_mouse self).

Definition set_rot_y (self : OrbitViewer) (r : Q) : OrbitViewer :=
  mkViewer (pos self) (vel self) (mars_sun self) (rot_x self) r
    (zoom self) (last_mouse self).

Definition set_zoom (self : OrbitViewer) (z : Q) : OrbitViewer :=
  mkViewer (pos self) (vel self) (mars_sun self) (rot_x self) (rot_y self)
    z (last_mouse self).

Definition set_last_mouse (self : OrbitViewer) (p : Z * Z) : OrbitViewer :=
  mkViewer (pos self) (vel self) (mars_sun self) (rot_x self) (rot_y self)
    (zoom self) (Some p).

(** [OrbitViewer.__init__] *)
Definition init (pos vel : list vec3) (mars_sun : vec3) : OrbitViewer :=
  mkViewer pos vel mars_sun (-40) 30 35000 None.

Section Methods.

Variable cfg : Config.

Definition resizeGL (w h : Z) : result (list gl_cmd) :=
  aspect <- (if Py.truth h then Py.truediv (inject_Z w) (inject_Z h)
             else Ok 1) ;;
  Ok [glViewport 0 0 w h;
      glMatrixMode GL_PROJECTION;
      glLoadIdentity;
      gluPerspective 45 aspect 1000 1e10;
      glMatrixMode GL_MODELVIEW].

Definition draw_sun (self : OrbitViewer) : list gl_cmd :=
  let '(sx, sy, sz) := vscale (vneg (mars_sun self)) (sun_distance_scale cfg) in
  [glPushMatrix;
   glTranslatef sx sy sz;
   glColor3f 1.0 0.75 0.2;
   gluQuadricDrawStyle GLU_LINE;
   glLineWidth 1.5;
   gluSphere (sun_radius_km cfg) 48 48;
   glPopMatrix].

Definition draw_mars_wireframe : list gl_cmd :=
  [glPushMatrix;
   glColor3f 0.9 0.3 0.3;
   gluQuadricDrawStyle GLU_LINE;
   gluSphere (mars_radius_km cfg) 36 36;
   glPopMatrix].

Definition draw_mars_atmosphere : list gl_cmd :=
  [glPushMatrix;
   glColor4f 0.4 0.6 1.0 (atmosphere_alpha cfg);
   gluQuadricDrawStyle GLU_FILL;
   gluSphere (mars_radius_km cfg * atmosphere_scale cfg) 36 36;
   glPopMatrix].

Definition draw_spacecraft_points (self : OrbitViewer) : list gl_cmd :=
  [glColor3f 1.0 1.0 0.3;
   glPointSize (spacecraft_point_size cfg);
   glBegin GL_POINTS]
  ++ map (fun '(x, y, z) => glVertex3f x y z) (pos self)
  ++ [glEnd].

(** The body of the loop of [draw_velocity_vectors], over the indices
    still to visit. *)
Fixpoint velocity_lines (self : OrbitViewer) (indices : list Z)
    : result (list gl_cmd) :=
  match indices with
  | [] => Ok []
  | i :: rest =>
      p <- Py.getitem (pos self) i ;;
      v <- Py.getitem (vel self) i ;;
      let '(x, y, z) := p in
      let '(vx, vy, vz) := v in
      more <- velocity_lines self rest ;;
      Ok (glVertex3f x y z
          :: glVertex3f (x + vx * velocity_scale cfg)
                        (y + vy * velocity_scale cfg)
                        (z + vz * velocity_scale cfg)
          :: more)
  end.

Definition draw_velocity_vectors (self : OrbitViewer)
    : result (list gl_cmd) :=
  indices <- Py.range 0 (Z.of_nat (length (pos self))) (velocity_stride cfg) ;;
  lines <- velocity_lines self indices ;;
  Ok ([glColor3f 0.3 1.0 0.3; glLineWidth 1.5; glBegin GL_LINES]
      ++ lines
      ++ [glEnd]).

Definition paintGL (self : OrbitViewer) : result (list gl_cmd) :=
  vectors <- draw_velocity_vectors self ;;
  Ok ([glClear;
       glLoadIdentity;
       glTranslatef 0 0 (- zoom self);
       glRotatef (rot_x self) 1 0 0;
       glRotatef (rot_y self) 0 1 0]
      ++ draw_sun self
      ++ draw_mars_wireframe
      ++ draw_mars_atmosphere
      ++ draw_spacecraft_points self
      ++ vectors).

Definition wheelEvent (self : OrbitViewer) (delta : Z)
    : result OrbitViewer :=
  let zoom_step := 2000 in
  notches <- Py.truediv (inject_Z delta) 120 ;;
  let self := set_zoom self (zoom self - notches * zoom_step) in
  let self :=
    set_zoom self
      (Py.max (min_zoom cfg) (Py.min (zoom self) (max_zoom cfg))) in
  Ok self.

Definition mousePressEvent (self : OrbitViewer) (x y : Z)
    : result OrbitViewer :=
  Ok (set_last_mouse self (x, y)).

Definition mouseMoveEvent (self : OrbitViewer) (x y : Z)
    : result OrbitViewer :=
  match last_mouse self with
  | None => Raise AttributeError
  | Some (lx, ly) =>
      let dx := (x - lx)%Z in
      let dy := (y - ly)%Z in
      let self := set_last_mouse self (x, y) in
      let self := set_rot_x self (rot_x self + inject_Z dy * 0.4) in
      let self := set_rot_y self (rot_y self + inject_Z dx * 0.4) in
      Ok self
  end.

Definition handle (self : OrbitViewer) (e : event) : result OrbitViewer :=
  match e with
  | Wheel delta => wheelEvent self delta
  | MousePress x y => mousePressEvent self x y
  | MouseMove x y => mouseMoveEvent self x y
  end.

Fixpoint run (self : OrbitViewer) (es : list event) : result OrbitViewer :=
  match es with
  | [] => Ok self
  | e :: es' => self' <- handle self e ;; run self' es'
  end.

End Methods.

End Static.

(** ** Notions of the specification *)

(** The specification's [clamp(x, lo, hi)]: [x] brought back into
    [[lo, hi]]. *)
Definition clamp (x lo hi : Q) : Q :=
  if Py.lt x lo then lo else if Py.lt hi x then hi else x.

(** [n] wheel events with the same delta, one after the other. *)
Definition motion_wheels (cfg : Motion.Config) (delta : Z) (n : N)
    (self : Motion.OrbitViewer) : result Motion.OrbitViewer :=
  N.iter n (fun r => s <- r ;; Motion.wheelEvent cfg s delta) (Ok self).

Definition static_wheels (cfg : Static.Config) (delta : Z) (n : N)
    (self : Static.OrbitViewer) : result Static.OrbitViewer :=
  N.iter n (fun r => s <- r ;; Static.wheelEvent cfg s delta) (Ok self).

(** [CONFIG] of the animated viewer with another ["time_speed"]; the entry
    is meant to be edited, as the comments above it in the source say. *)
Definition with_time_speed (ts : Q) : Motion.Config :=
  Motion.mkConfig ts
    (Motion.mars_radius_km Motion.CONFIG)
    (Motion.atmosphere_scale Motion.CONFIG)
    (Motion.atmosphere_alpha Motion.CONFIG)
    (Motion.spacecraft_scale Motion.CONFIG)
    (Motion.sun_radius_km Motion.CONFIG)
    (Motion.sun_distance_scale Motion.CONFIG)
    (Motion.min_zoom Motion.CONFIG)
    (Motion.max_zoom Motion.CONFIG)
    (Motion.zoom_sensitivity Motion.CONFIG).

(** The specification's cursor after [n] ticks:
    [(initial_cursor + n * time_speed) mod trajectory_length]. *)
Definition cursor_after (initial_cursor : Z) (n : nat) (time_speed : Q)
    (trajectory_length : nat) : result Q :=
  Py.mod_ (inject_Z initial_cursor + inject_Z (Z.of_nat n) * time_speed)
          (inject_Z (Z.of_nat trajectory_length)).

(** The indices [0, stride, 2 * stride, ...] below [n]: there are
    [ceil(n / stride)] of them. *)
Definition strided_count (n : nat) (stride : Z) : nat :=
  Z.to_nat ((Z.of_nat n + stride - 1) / stride).

Definition strided_indices (n : nat) (stride : Z) : list Z :=
  map (fun k => (Z.of_nat k * stride)%Z) (seq 0 (strided_count n stride)).

(** The velocity segment of sample [i]: from its position to
    [position + velocity * velocity_scale], under the modelview matrix [m]. *)
Definition velocity_segment (cfg : Static.Config) (self : Static.OrbitViewer)
    (m : mat) (i : Z) : item :=
  let p := nth (Z.to_nat i) (Static.pos self) (0, 0, 0) in
  let v := nth (Z.to_nat i) (Static.vel self) (0, 0, 0) in
  Segment (m, p) (m, vadd p (vscale v (Static.velocity_scale cfg))).

(** The two vertices [draw_velocity_vectors] sends for sample [i]. *)
Definition velocity_vertices (cfg : Static.Config) (self : Static.OrbitViewer)
    (i : Z) : list gl_cmd :=
  let '(x, y, z) := nth (Z.to_nat i) (Static.pos self) (0, 0, 0) in
  let '(vx, vy, vz) := nth (Z.to_nat i) (Static.vel self) (0, 0, 0) in
  [glVertex3f x y z;
   glVertex3f (x + vx * Static.velocity_scale cfg)
              (y + vy * Static.velocity_scale cfg)
              (z + vz * Static.velocity_scale cfg)].

(** A pipeline state with more items drawn and the assembly stage set. *)
Definition with_drawn (st : state) (a : option (prim_mode * option placed))
    (items : list item) : state :=
  mkState (mode st) (modelview st) (projection st) (modelview_stack st)
    (projection_stack st) a (drawn st ++ items).

(** The segments of a [GL_LINE_STRIP] through the points [ps], the strip
    having reached [prev]. *)
Fixpoint strip_from (m : mat) (prev : vec3) (ps : list vec3) : list item :=
  match ps with
  | [] => []
  | p :: ps' => Segment (m, prev) (m, p) :: strip_from m p ps'
  end.

Definition line_strip (m : mat) (ps : list vec3) : list item :=
  match ps with
  | [] => []
  | p :: ps' => strip_from m p ps'
  end.

(** An item is drawn under the view [v]: its vertices are transformed by [v]
    itself, a quadric is placed by [v] followed by the translation to its
    centre. *)
Definition under_view (v : mat) (i : item) : Prop :=
  match i with
  | Point (m, _) => m = v
  | Segment (m1, _) (m2, _) => m1 = v /\ m2 = v
  | Sphere m _ _ _ =>
      exists c : vec3,
        let '(x, y, z) := c in
        m = mmul v (translation (Q2R x) (Q2R y) (Q2R z))
  end.

(** The pipeline when the window is created: modelview mode, identity
    matrices, empty stacks, nothing drawn. *)
Definition gl_initial : state :=
  mkState GL_MODELVIEW identity identity [] [] None [].

(** No [MouseMove] comes before the first [MousePress]. *)
Fixpoint press_first (es : list event) : bool :=
  match es with
  | [] => true
  | MousePress _ _ :: _ => true
  | MouseMove _ _ :: _ => false
  | Wheel _ :: es' => press_first es'
  end.

(** The view transform of a camera: [T(0, 0, -zoom) . Rx(rot_x) . Ry(rot_y)]. *)
Definition view (rot_x rot_y zoom : Q) : mat :=
  mmul (translation 0 0 (Q2R (- zoom)))
       (mmul (Rx (Q2R rot_x)) (Ry (Q2R rot_y))).

(** ** The event loop

    What reaches the animated viewer while the window is open: input events
    and the time-outs of its [QTimer], in arrival order.  An exception ends
    the run. *)




(** ** Matrix state of the pipeline *)

(** Two pipeline states with the same matrix mode, matrices and stacks. *)
Definition same_matrices (a b : state) : Prop :=
  mode a = mode b /\
  modelview a = modelview b /\
  projection a = projection b /\
  modelview_stack a = modelview_stack b /\
  projection_stack a = projection_stack b.

(** The calls that select, replace, multiply, save or restore a matrix. *)
Definition matrix_call (c : gl_cmd) : bool :=
  match c with
  | glMatrixMode _ | glLoadIdentity | gluPerspective _ _ _ _
  | glTranslatef _ _ _ | glRotatef _ _ _ _ | glPushMatrix | glPopMatrix => true
  | _ => false
  end.

(** ** Loading the table

    [load_geometry_data] after [pd.read_csv]: the table is a [DataFrame], a
    list of named columns of numbers (cells that are not numbers are outside
    the model).  [df[[a, b, c]]] raises [KeyError] naming the labels that are
    not columns, [.to_numpy()] gives the rows, and [.iloc[0]] raises
    [IndexError] when there is no row. *)

Module Table.

Definition DataFrame : Type := list (String.string * list Q).

Inductive load_error : Type :=
| KeyError (missing : list String.string)
| IlocIndexError.

Inductive loaded (A : Type) : Type :=
| Loaded (a : A)
| Failed (e : load_error).

Arguments Loaded {A} a.
Arguments Failed {A} e.

Definition and_then {A B : Type} (m : loaded A) (k : A -> loaded B)
    : loaded B :=
  match m with
  | Loaded a => k a
  | Failed e => Failed e
  end.

(** The column labelled [name], if there is one. *)
Fixpoint column (df : DataFrame) (name : String.string) : option (list Q) :=
  match df with
  | [] => None
  | (label, cells) :: df' =>
      if String.eqb label name then Some cells else column df' name
  end.

Definition has_column (df : DataFrame) (name : String.string) : bool :=
  match column df name with
  | Some _ => true
  | None => false
  end.

(** The rows of three columns side by side. *)
Fixpoint rows (a b c : list Q) : list vec3 :=
  match a, b, c with
  | x :: a', y :: b', z :: c' => (x, y, z) :: rows a' b' c'
  | _, _, _ => []
  end.

(** [df[[a, b, c]].to_numpy()] *)
Definition select (df : DataFrame) (a b c : String.string)
    : loaded (list vec3) :=
  match column df a, column df b, column df c with
  | Some ca, Some cb, Some cc => Loaded (rows ca cb cc)
  | _, _, _ =>
      Failed (KeyError (filter (fun n => negb (has_column df n)) [a; b; c]))
  end.

(** [df[[a, b, c]].iloc[0].to_numpy()] *)
Definition select_first (df : DataFrame) (a b c : String.string)
    : loaded vec3 :=
  and_then (select df a b c)
    (fun rs => match rs with
               | r :: _ => Loaded r
               | [] => Failed IlocIndexError
               end).

(** Every column of a [DataFrame] has as many cells as the table has rows. *)
Definition rectangular (df : DataFrame) (n : nat) : Prop :=
  Forall (fun col => length (snd col) = n) df.

Import String.
Local Open Scope string_scope.

(** [load_geometry_data] of [mgs_viewer_in_motion.py], from the table read. *)
Definition motion_load_geometry_data (df : DataFrame)
    : loaded (list vec3 * vec3) :=
  and_then (select df "mgs_x_km" "mgs_y_km" "mgs_z_km") (fun xyz =>
  and_then (select_first df "mars_sun_x_km" "mars_sun_y_km" "mars_sun_z_km")
    (fun mars_sun =>
  Loaded (xyz, mars_sun))).

(** [load_geometry_data] of [mgs_viewer_in_static.py], from the table read. *)
Definition static_load_geometry_data (df : DataFrame)
    : loaded (list vec3 * list vec3 * vec3) :=
  and_then (select df "mgs_x_km" "mgs_y_km" "mgs_z_km") (fun pos =>
  and_then (select df "mgs_vx_km_s" "mgs_vy_km_s" "mgs_vz_km_s") (fun vel =>
  and_then (select_first df "mars_sun_x_km" "mars_sun_y_km" "mars_sun_z_km")
    (fun mars_sun =>
  Loaded (pos, vel, mars_sun)))).

(** The column labels each [load_geometry_data] asks for. *)
Definition motion_labels : list String.string :=
  ["mgs_x_km"; "mgs_y_km"; "mgs_z_km";
   "mars_sun_x_km"; "mars_sun_y_km"; "mars_sun_z_km"].

Definition static_labels : list String.string :=
  ["mgs_x_km"; "mgs_y_km"; "mgs_z_km";
   "mgs_vx_km_s"; "mgs_vy_km_s"; "mgs_vz_km_s";
   "mars_sun_x_km"; "mars_sun_y_km"; "mars_sun_z_km"].



End Table.

(** ** Python operators *)

Lemma lt_true (a b : Q) : Py.lt a b = true <-> a < b.
Proof.
  unfold Py.lt. rewrite negb_true_iff, <- not_true_iff_false, Qle_bool_iff.
  split; [apply Qnot_le_lt | apply Qlt_not_le].
Qed.

Lemma lt_false (a b : Q) : Py.lt a b = false <-> b <= a.
Proof.
  unfold Py.lt. rewrite negb_false_iff. apply Qle_bool_iff.
Qed.

(** Linear arithmetic on [Q], after the literals [5e10] and [_ / 120] are
    brought to the form it reads. *)
Ltac qlra :=
  unfold Qdiv in *;
  change (/ 120) with (1 # 120) in *;
  change 5e10 with 50000000000 in *;
  Lqa.lra.

Ltac py_cmp :=
  repeat match goal with
         | H : Py.lt _ _ = true |- _ => apply lt_true in H
         | H : Py.lt _ _ = false |- _ => apply lt_false in H
         end.

Lemma max_min_bounds (lo hi x : Q) :
  lo <= hi -> lo <= Py.max lo (Py.min x hi) <= hi.
Proof.
  intros Hlh. unfold Py.max, Py.min.
  destruct (Py.lt hi x) eqn:E1; destruct (Py.lt lo _) eqn:E2;
    py_cmp; qlra.
Qed.

Lemma max_min_clamp (lo hi x : Q) :
  lo <= hi -> Py.max lo (Py.min x hi) == clamp x lo hi.
Proof.
  intros Hlh. unfold Py.max, Py.min, clamp.
  destruct (Py.lt hi x) eqn:E1; destruct (Py.lt x lo) eqn:E3;
    destruct (Py.lt lo _) eqn:E2;
    py_cmp; qlra.
Qed.

(** ** The wheel handler *)

Lemma motion_wheelEvent_ok (cfg : Motion.Config) (self : Motion.OrbitViewer)
    (delta : Z) :
  Motion.wheelEvent cfg self delta =
  Ok (Motion.set_zoom self
        (Py.max (Motion.min_zoom cfg)
           (Py.min (Motion.zoom self - inject_Z delta / 120 * 2000)
              (Motion.max_zoom cfg)))).
Proof. reflexivity. Qed.

Lemma static_wheelEvent_ok (cfg : Static.Config) (self : Static.OrbitViewer)
    (delta : Z) :
  Static.wheelEvent cfg self delta =
  Ok (Static.set_zoom self
        (Py.max (Static.min_zoom cfg)
           (Py.min (Static.zoom self - inject_Z delta / 120 * 2000)
              (Static.max_zoom cfg)))).
Proof. reflexivity. Qed.

Lemma motion_wheelEvent_bounds (self : Motion.OrbitViewer) (delta : Z) :
  exists self',
    Motion.wheelEvent Motion.CONFIG self delta = Ok self' /\
    5000 <= Motion.zoom self' <= 5e10.
Proof.
  eexists. split; [apply motion_wheelEvent_ok |].
  cbn [Motion.zoom Motion.set_zoom].
  apply (max_min_bounds 5000 5e10). qlra.
Qed.

Lemma static_wheelEvent_bounds (self : Static.OrbitViewer) (delta : Z) :
  exists self',
    Static.wheelEvent Static.CONFIG self delta = Ok self' /\
    5000 <= Static.zoom self' <= 5e10.
Proof.
  eexists. split; [apply static_wheelEvent_ok |].
  cbn [Static.zoom Static.set_zoom].
  apply (max_min_bounds 5000 5e10). qlra.
Qed.

(** One zoom-out notch on a zoom already within bounds: 2000 km further,
    capped at [max_zoom]. *)
Lemma zoom_out_step (z z' : Q) (k : Z) :
  z' == Py.min (z + 2000 * inject_Z k) 5e10 ->
  5000 <= z ->
  (0 <= k)%Z ->
  Py.max 5000 (Py.min (z' - inject_Z (-120) / 120 * 2000) 5e10)
  == Py.min (z + 2000 * inject_Z (k + 1)) 5e10.
Proof.
  intros Hz' Hz Hk.
  rewrite inject_Z_plus.
  rewrite Zle_Qle in Hk.
  change (inject_Z 1) with 1. change (inject_Z 0) with 0 in Hk.
  change (inject_Z (-120)) with (-120).
  revert Hz'. unfold Py.max, Py.min.
  destruct (Py.lt 5e10 (z + 2000 * inject_Z k)) eqn:E1;
    destruct (Py.lt 5e10 (z + 2000 * (inject_Z k + 1))) eqn:E2;
    destruct (Py.lt 5e10 (z' - -120 / 120 * 2000)) eqn:E3;
    match goal with |- context [Py.lt 5000 ?a] => destruct (Py.lt 5000 a) eqn:E4 end;
    py_cmp; intros Hz'; qlra.
Qed.

Lemma motion_zoom_out (n : N) (self : Motion.OrbitViewer) :
  5000 <= Motion.zoom self <= 5e10 ->
  exists self',
    motion_wheels Motion.CONFIG (-120) n self = Ok self' /\
    Motion.zoom self'
    == Py.min (Motion.zoom self + 2000 * inject_Z (Z.of_N n)) 5e10.
Proof.
  intros [Hlo Hhi]. unfold motion_wheels.
  induction n as [| n IH] using N.peano_ind.
  - exists self. split; [reflexivity |].
    cbn [N.iter Z.of_N]. unfold Py.min.
    destruct (Py.lt _ _) eqn:E; py_cmp; change (inject_Z 0) with 0 in *; qlra.
  - destruct IH as (s & Hs & Hz).
    rewrite N.iter_succ, Hs. cbn [bind].
    eexists. split; [apply motion_wheelEvent_ok |].
    cbn [Motion.zoom Motion.set_zoom Motion.min_zoom Motion.max_zoom Motion.CONFIG].
    rewrite N2Z.inj_succ. unfold Z.succ.
    apply zoom_out_step; [exact Hz | exact Hlo | lia].
Qed.

Lemma static_zoom_out (n : N) (self : Static.OrbitViewer) :
  5000 <= Static.zoom self <= 5e10 ->
  exists self',
    static_wheels Static.CONFIG (-120) n self = Ok self' /\
    Static.zoom self'
    == Py.min (Static.zoom self + 2000 * inject_Z (Z.of_N n)) 5e10.
Proof.
  intros [Hlo Hhi]. unfold static_wheels.
  induction n as [| n IH] using N.peano_ind.
  - exists self. split; [reflexivity |].
    cbn [N.iter Z.of_N]. unfold Py.min.
    destruct (Py.lt _ _) eqn:E; py_cmp; change (inject_Z 0) with 0 in *; qlra.
  - destruct IH as (s & Hs & Hz).
    rewrite N.iter_succ, Hs. cbn [bind].
    eexists. split; [apply static_wheelEvent_ok |].
    cbn [Static.zoom Static.set_zoom Static.min_zoom Static.max_zoom Static.CONFIG].
    rewrite N2Z.inj_succ. unfold Z.succ.
    apply zoom_out_step; [exact Hz | exact Hlo | lia].
Qed.

(** Past 25 000 000 notches every zoom-out run sits on the cap. *)
Lemma capped_after (z z' : Q) (m : N) :
  5000 <= z ->
  (24999999 <= m)%N ->
  z' == Py.min (z + 2000 * inject_Z (Z.of_N m)) 5e10 ->
  z' == 5e10.
Proof.
  intros Hz Hm Hz'.
  assert (Hq : inject_Z 24999999 <= inject_Z (Z.of_N m))
    by (rewrite <- Zle_Qle; lia).
  change (inject_Z 24999999) with 24999999 in Hq.
  revert Hz'. unfold Py.min.
  destruct (Py.lt _ _) eqn:E; py_cmp; intros Hz'; qlra.
Qed.

Lemma motion_zoom_out_capped (self : Motion.OrbitViewer) (n : N) :
  exists self',
    motion_wheels Motion.CONFIG (-120) (25000000 + n) self = Ok self' /\
    Motion.zoom self' == 5e10.
Proof.
  destruct (motion_wheelEvent_bounds self (-120)) as (s1 & H1 & Hb1).
  destruct (motion_zoom_out (24999999 + n) s1 Hb1) as (s2 & H2 & Hz2).
  exists s2. split.
  - replace (25000000 + n)%N with ((24999999 + n) + 1)%N by lia.
    unfold motion_wheels in *. rewrite N.iter_add.
    change (N.iter 1 ?f ?x) with (f x). cbn [bind]. rewrite H1. exact H2.
  - apply (capped_after (Motion.zoom s1) _ (24999999 + n));
      [apply Hb1 | lia | exact Hz2].
Qed.

Lemma static_zoom_out_capped (self : Static.OrbitViewer) (n : N) :
  exists self',
    static_wheels Static.CONFIG (-120) (25000000 + n) self = Ok self' /\
    Static.zoom self' == 5e10.
Proof.
  destruct (static_wheelEvent_bounds self (-120)) as (s1 & H1 & Hb1).
  destruct (static_zoom_out (24999999 + n) s1 Hb1) as (s2 & H2 & Hz2).
  exists s2. split.
  - replace (25000000 + n)%N with ((24999999 + n) + 1)%N by lia.
    unfold static_wheels in *. rewrite N.iter_add.
    change (N.iter 1 ?f ?x) with (f x). cbn [bind]. rewrite H1. exact H2.
  - apply (capped_after (Static.zoom s1) _ (24999999 + n));
      [apply Hb1 | lia | exact Hz2].
Qed.

(** A run of wheel events never fails, and once it holds one event the zoom
    it leaves is within bounds. *)
Lemma motion_wheels_bounds (delta : Z) (n : N) (self : Motion.OrbitViewer) :
  exists self',
    motion_wheels Motion.CONFIG delta (N.succ n) self = Ok self' /\
    5000 <= Motion.zoom self' <= 5e10.
Proof.
  unfold motion_wheels. rewrite N.iter_succ.
  assert (Hok : exists s, N.iter n
                  (fun r => s <- r ;; Motion.wheelEvent Motion.CONFIG s delta)
                  (Ok self) = Ok s).
  { induction n as [| n IH] using N.peano_ind.
    - exists self. reflexivity.
    - destruct IH as (s & Hs). rewrite N.iter_succ, Hs. cbn [bind].
      eexists. apply motion_wheelEvent_ok. }
  destruct Hok as (s & Hs). rewrite Hs. cbn [bind].
  apply motion_wheelEvent_bounds.
Qed.

Lemma static_wheels_bounds (delta : Z) (n : N) (self : Static.OrbitViewer) :
  exists self',
    static_wheels Static.CONFIG delta (N.succ n) self = Ok self' /\
    5000 <= Static.zoom self' <= 5e10.
Proof.
  unfold static_wheels. rewrite N.iter_succ.
  assert (Hok : exists s, N.iter n
                  (fun r => s <- r ;; Static.wheelEvent Static.CONFIG s delta)
                  (Ok self) = Ok s).
  { induction n as [| n IH] using N.peano_ind.
    - exists self. reflexivity.
    - destruct IH as (s & Hs). rewrite N.iter_succ, Hs. cbn [bind].
      eexists. apply static_wheelEvent_ok. }
  destruct Hok as (s & Hs). rewrite Hs. cbn [bind].
  apply static_wheelEvent_bounds.
Qed.

(** C1.  After any wheel event, whatever the sign or size of its delta, the
    stored zoom lies between [min_zoom = 5000] and [max_zoom = 5e10], in both
    viewers; the same holds after any run of zoom-out events ([delta = -120]),
    and from 25 000 000 notches on such a run ends exactly on [max_zoom]. *)
Theorem wheel_zoom_within_bounds :
  (forall (self : Motion.OrbitViewer) (delta : Z),
      exists self',
        Motion.wheelEvent Motion.CONFIG self delta = Ok self' /\
        Motion.min_zoom Motion.CONFIG <= Motion.zoom self'
          <= Motion.max_zoom Motion.CONFIG) /\
  (forall (self : Static.OrbitViewer) (delta : Z),
      exists self',
        Static.wheelEvent Static.CONFIG self delta = Ok self' /\
        Static.min_zoom Static.CONFIG <= Static.zoom self'
          <= Static.max_zoom Static.CONFIG) /\
  (forall (self : Motion.OrbitViewer) (n : N),
      (exists self',
          motion_wheels Motion.CONFIG (-120) (N.succ n) self = Ok self' /\
          5000 <= Motion.zoom self' <= 5e10) /\
      (exists self',
          motion_wheels Motion.CONFIG (-120) (25000000 + n) self = Ok self' /\
          Motion.zoom self' == 5e10)) /\
  (forall (self : Static.OrbitViewer) (n : N),
      (exists self',
          static_wheels Static.CONFIG (-120) (N.succ n) self = Ok self' /\
          5000 <= Static.zoom self' <= 5e10) /\
      (exists self',
          static_wheels Static.CONFIG (-120) (25000000 + n) self = Ok self' /\
          Static.zoom self' == 5e10)).
Proof.
  repeat split.
  - apply motion_wheelEvent_bounds.
  - apply static_wheelEvent_bounds.
  - apply motion_wheels_bounds.
  - apply motion_zoom_out_capped.
  - apply static_wheels_bounds.
  - apply static_zoom_out_capped.
Qed.

(** C3.  In both viewers the wheel handler stores
    [clamp(zoom - (delta / 120) * zoom_step, min_zoom, max_zoom)] with
    [zoom_step = 2000], for every signed delta; from the initial zoom 35000 a
    delta of +120 gives 33000, which is the unclamped value. *)
Theorem wheel_zoom_is_clamped_step :
  (forall (self : Motion.OrbitViewer) (delta : Z),
      exists self',
        Motion.wheelEvent Motion.CONFIG self delta = Ok self' /\
        Motion.zoom self'
        == clamp (Motion.zoom self - (inject_Z delta / 120) * 2000)
                 (Motion.min_zoom Motion.CONFIG)
                 (Motion.max_zoom Motion.CONFIG)) /\
  (forall (self : Static.OrbitViewer) (delta : Z),
      exists self',
        Static.wheelEvent Static.CONFIG self delta = Ok self' /\
        Static.zoom self'
        == clamp (Static.zoom self - (inject_Z delta / 120) * 2000)
                 (Static.min_zoom Static.CONFIG)
                 (Static.max_zoom Static.CONFIG)) /\
  (forall (xyz : list vec3) (mars_sun : vec3),
      exists self',
        Motion.wheelEvent Motion.CONFIG (Motion.init xyz mars_sun) 120
        = Ok self' /\
        Motion.zoom self' == 33000 /\
        Motion.zoom self'
        == Motion.zoom (Motion.init xyz mars_sun) - (inject_Z 120 / 120) * 2000) /\
  (forall (pos vel : list vec3) (mars_sun : vec3),
      exists self',
        Static.wheelEvent Static.CONFIG (Static.init pos vel mars_sun) 120
        = Ok self' /\
        Static.zoom self' == 33000 /\
        Static.zoom self'
        == Static.zoom (Static.init pos vel mars_sun) - (inject_Z 120 / 120) * 2000).
Proof.
  split; [| split; [| split]].
  - intros self delta. eexists. split; [apply motion_wheelEvent_ok |].
    cbn [Motion.zoom Motion.set_zoom].
    apply max_min_clamp. cbn. qlra.
  - intros self delta. eexists. split; [apply static_wheelEvent_ok |].
    cbn [Static.zoom Static.set_zoom].
    apply max_min_clamp. cbn. qlra.
  - intros xyz mars_sun. eexists. split; [apply motion_wheelEvent_ok |].
    split; reflexivity.
  - intros pos vel mars_sun. eexists. split; [apply static_wheelEvent_ok |].
    split; reflexivity.
Qed.

(** ** The pointer handlers *)

Lemma motion_mouseMoveEvent_ok (self : Motion.OrbitViewer) (lx ly x y : Z) :
  Motion.last_mouse self = Some (lx, ly) ->
  Motion.mouseMoveEvent self x y =
  Ok (Motion.mkViewer (Motion.xyz self) (Motion.mars_sun self)
        (Motion.index self)
        (Motion.rot_x self + inject_Z (y - ly) * 0.4)
        (Motion.rot_y self + inject_Z (x - lx) * 0.4)
        (Motion.zoom self) (Some (x, y))).
Proof. intros H. unfold Motion.mouseMoveEvent. rewrite H. reflexivity. Qed.

Lemma static_mouseMoveEvent_ok (self : Static.OrbitViewer) (lx ly x y : Z) :
  Static.last_mouse self = Some (lx, ly) ->
  Static.mouseMoveEvent self x y =
  Ok (Static.mkViewer (Static.pos self) (Static.vel self)
        (Static.mars_sun self)
        (Static.rot_x self + inject_Z (y - ly) * 0.4)
        (Static.rot_y self + inject_Z (x - lx) * 0.4)
        (Static.zoom self) (Some (x, y))).
Proof. intros H. unfold Static.mouseMoveEvent. rewrite H. reflexivity. Qed.

(** C4.  A pointer move at [(x, y)] with last recorded position [(lx, ly)]
    adds [dy * 0.4] to [rot_x] and [dx * 0.4] to [rot_y], where
    [dx = x - lx] and [dy = y - ly], with nothing clamped or normalised, and
    records [(x, y)]; a move with [(dx, dy) = (0, 0)] leaves both rotations
    as they are; a press at (100, 100) followed by a move to (110, 130) adds
    12 to [rot_x] and 4 to [rot_y].  The static viewer's handler follows the
    same rule. *)
Theorem pointer_move_rotates :
  (forall (self : Motion.OrbitViewer) (lx ly x y : Z),
      Motion.last_mouse self = Some (lx, ly) ->
      exists self',
        Motion.mouseMoveEvent self x y = Ok self' /\
        Motion.rot_x self' = Motion.rot_x self + inject_Z (y - ly) * 0.4 /\
        Motion.rot_y self' = Motion.rot_y self + inject_Z (x - lx) * 0.4 /\
        Motion.last_mouse self' = Some (x, y)) /\
  (forall (self : Motion.OrbitViewer) (x y : Z),
      Motion.last_mouse self = Some (x, y) ->
      exists self',
        Motion.mouseMoveEvent self x y = Ok self' /\
        Motion.rot_x self' == Motion.rot_x self /\
        Motion.rot_y self' == Motion.rot_y self) /\
  (forall (self : Motion.OrbitViewer),
      exists pressed moved,
        Motion.mousePressEvent self 100 100 = Ok pressed /\
        Motion.mouseMoveEvent pressed 110 130 = Ok moved /\
        Motion.rot_x moved == Motion.rot_x self + 12 /\
        Motion.rot_y moved == Motion.rot_y self + 4) /\
  (forall (self : Static.OrbitViewer) (lx ly x y : Z),
      Static.last_mouse self = Some (lx, ly) ->
      exists self',
        Static.mouseMoveEvent self x y = Ok self' /\
        Static.rot_x self' = Static.rot_x self + inject_Z (y - ly) * 0.4 /\
        Static.rot_y self' = Static.rot_y self + inject_Z (x - lx) * 0.4 /\
        Static.last_mouse self' = Some (x, y)).
Proof.
  split; [| split; [| split]]; cycle 3.
  - intros self lx ly x y H. eexists.
    split; [apply (static_mouseMoveEvent_ok self lx ly x y H) |].
    repeat split.
  - intros self lx ly x y H. eexists.
    split; [apply (motion_mouseMoveEvent_ok self lx ly x y H) |].
    repeat split.
  - intros self x y H. eexists.
    split; [apply (motion_mouseMoveEvent_ok self x y x y H) |].
    cbn [Motion.rot_x Motion.rot_y]. rewrite !Z.sub_diag.
    change (inject_Z 0) with 0. split; qlra.
  - intros self. eexists. eexists.
    split; [reflexivity |].
    split; [apply (motion_mouseMoveEvent_ok _ 100 100 110 130); reflexivity |].
    cbn [Motion.rot_x Motion.rot_y Motion.set_last_mouse].
    change (inject_Z (130 - 100)) with 30.
    change (inject_Z (110 - 100)) with 10.
    split; qlra.
Qed.

Lemma pointer_move_rotates_witness :
  exists self',
    Motion.mouseMoveEvent
      (Motion.set_last_mouse (Motion.init [] (0, 0, 0)) (100, 100)%Z)
      110 130 = Ok self' /\
    Motion.rot_x self' = -40 + inject_Z (130 - 100) * 0.4 /\
    Motion.rot_y self' = 30 + inject_Z (110 - 100) * 0.4 /\
    Motion.last_mouse self' = Some (110, 130)%Z.
Proof.
  apply (proj1 pointer_move_rotates
           (Motion.set_last_mouse (Motion.init [] (0, 0, 0)) (100, 100)%Z)
           100%Z 100%Z 110%Z 130%Z).
  reflexivity.
Defined.

(** ** What each handler leaves alone *)

Lemma motion_update_animation_inv (cfg : Motion.Config)
    (self self' : Motion.OrbitViewer) :
  Motion.update_animation cfg self = Ok self' ->
  self' = Motion.set_index self (Motion.index self').
Proof.
  unfold Motion.update_animation.
  destruct (Py.mod_ _ _) as [i |]; cbn [bind]; [| discriminate].
  intros H. injection H as <-. reflexivity.
Qed.

Lemma motion_mouseMoveEvent_inv (self self' : Motion.OrbitViewer) (x y : Z) :
  Motion.mouseMoveEvent self x y = Ok self' ->
  self' = Motion.mkViewer (Motion.xyz self) (Motion.mars_sun self)
            (Motion.index self) (Motion.rot_x self') (Motion.rot_y self')
            (Motion.zoom self) (Some (x, y)).
Proof.
  unfold Motion.mouseMoveEvent.
  destruct (Motion.last_mouse self) as [[lx ly] |]; [| discriminate].
  intros H. injection H as <-. reflexivity.
Qed.

Lemma static_mouseMoveEvent_inv (self self' : Static.OrbitViewer) (x y : Z) :
  Static.mouseMoveEvent self x y = Ok self' ->
  self' = Static.mkViewer (Static.pos self) (Static.vel self)
            (Static.mars_sun self) (Static.rot_x self') (Static.rot_y self')
            (Static.zoom self) (Some (x, y)).
Proof.
  unfold Static.mouseMoveEvent.
  destruct (Static.last_mouse self) as [[lx ly] |]; [| discriminate].
  intros H. injection H as <-. reflexivity.
Qed.

(** C10.  Each mutator touches only its own attributes.  A wheel event
    leaves [rot_x], [rot_y], the animation index, the recorded pointer
    position and the loaded data as they were (only [zoom] changes); a
    pointer move leaves [zoom], the animation index and the loaded data (only
    [rot_x], [rot_y] and [last_mouse] change); a timer tick leaves [zoom],
    [rot_x], [rot_y], the recorded pointer position and the loaded data (only
    [index] changes).  The static viewer, which has no animation index,
    behaves the same on wheel and move events. *)
Theorem handlers_frame :
  (forall (cfg : Motion.Config) (self self' : Motion.OrbitViewer) (delta : Z),
      Motion.wheelEvent cfg self delta = Ok self' ->
      Motion.rot_x self' = Motion.rot_x self /\
      Motion.rot_y self' = Motion.rot_y self /\
      Motion.index self' = Motion.index self /\
      Motion.last_mouse self' = Motion.last_mouse self /\
      Motion.xyz self' = Motion.xyz self /\
      Motion.mars_sun self' = Motion.mars_sun self) /\
  (forall (self self' : Motion.OrbitViewer) (x y : Z),
      Motion.mouseMoveEvent self x y = Ok self' ->
      Motion.zoom self' = Motion.zoom self /\
      Motion.index self' = Motion.index self /\
      Motion.xyz self' = Motion.xyz self /\
      Motion.mars_sun self' = Motion.mars_sun self) /\
  (forall (cfg : Motion.Config) (self self' : Motion.OrbitViewer),
      Motion.update_animation cfg self = Ok self' ->
      Motion.zoom self' = Motion.zoom self /\
      Motion.rot_x self' = Motion.rot_x self /\
      Motion.rot_y self' = Motion.rot_y self /\
      Motion.last_mouse self' = Motion.last_mouse self /\
      Motion.xyz self' = Motion.xyz self /\
      Motion.mars_sun self' = Motion.mars_sun self) /\
  (forall (cfg : Static.Config) (self self' : Static.OrbitViewer) (delta : Z),
      Static.wheelEvent cfg self delta = Ok self' ->
      Static.rot_x self' = Static.rot_x self /\
      Static.rot_y self' = Static.rot_y self /\
      Static.last_mouse self' = Static.last_mouse self /\
      Static.pos self' = Static.pos self /\
      Static.vel self' = Static.vel self /\
      Static.mars_sun self' = Static.mars_sun self) /\
  (forall (self self' : Static.OrbitViewer) (x y : Z),
      Static.mouseMoveEvent self x y = Ok self' ->
      Static.zoom self' = Static.zoom self /\
      Static.pos self' = Static.pos self /\
      Static.vel self' = Static.vel self /\
      Static.mars_sun self' = Static.mars_sun self).
Proof.
  split; [| split; [| split; [| split]]].
  - intros cfg self self' delta H.
    rewrite motion_wheelEvent_ok in H. injection H as <-. repeat split.
  - intros self self' x y H.
    rewrite (motion_mouseMoveEvent_inv _ _ _ _ H). repeat split.
  - intros cfg self self' H.
    rewrite (motion_update_animation_inv _ _ _ H). repeat split.
  - intros cfg self self' delta H.
    rewrite static_wheelEvent_ok in H. injection H as <-. repeat split.
  - intros self self' x y H.
    rewrite (static_mouseMoveEvent_inv _ _ _ _ H). repeat split.
Qed.

Lemma handlers_frame_witness :
  let self :=
    Motion.set_last_mouse (Motion.init [(1, 2, 3); (4, 5, 6)] (7, 8, 9))
      (100, 100)%Z in
  let wheeled := Motion.set_zoom self (35000 - inject_Z 120 / 120 * 2000) in
  let moved :=
    Motion.mkViewer [(1, 2, 3); (4, 5, 6)] (7, 8, 9) 0%Z
      (-40 + inject_Z (130 - 100) * 0.4) (30 + inject_Z (110 - 100) * 0.4)
      35000 (Some (110, 130)%Z) in
  let ticked := Motion.set_index self 1 in
  (Motion.rot_x wheeled = Motion.rot_x self /\
   Motion.rot_y wheeled = Motion.rot_y self /\
   Motion.index wheeled = Motion.index self /\
   Motion.last_mouse wheeled = Motion.last_mouse self /\
   Motion.xyz wheeled = Motion.xyz self /\
   Motion.mars_sun wheeled = Motion.mars_sun self) /\
  (Motion.zoom moved = Motion.zoom self /\
   Motion.index moved = Motion.index self /\
   Motion.xyz moved = Motion.xyz self /\
   Motion.mars_sun moved = Motion.mars_sun self) /\
  (Motion.zoom ticked = Motion.zoom self /\
   Motion.rot_x ticked = Motion.rot_x self /\
   Motion.rot_y ticked = Motion.rot_y self /\
   Motion.last_mouse ticked = Motion.last_mouse self /\
   Motion.xyz ticked = Motion.xyz self /\
   Motion.mars_sun ticked = Motion.mars_sun self).
Proof.
  intros self wheeled moved ticked.
  split; [| split].
  - apply (proj1 handlers_frame Motion.CONFIG self wheeled 120%Z).
    reflexivity.
  - apply (proj1 (proj2 handlers_frame) self moved 110%Z 130%Z).
    reflexivity.
  - apply (proj1 (proj2 (proj2 handlers_frame))
             (with_time_speed 1) self ticked).
    reflexivity.
Defined.

(** ** Runs of input events *)

Lemma motion_run_ok_iff (cfg : Motion.Config) (es : list event) :
  forall self : Motion.OrbitViewer,
    (exists self', Motion.run cfg self es = Ok self') <->
    (Motion.last_mouse self <> None \/ press_first es = true).
Proof.
  induction es as [| e es IH]; intros self.
  - cbn. split; [right; reflexivity | exists self; reflexivity].
  - destruct e as [delta | x y | x y]; cbn [Motion.run Motion.handle press_first].
    + rewrite motion_wheelEvent_ok. cbn [bind]. rewrite IH. reflexivity.
    + cbn [Motion.mousePressEvent bind]. rewrite IH.
      cbn [Motion.last_mouse Motion.set_last_mouse].
      split; intros _; [right; reflexivity | left; discriminate].
    + destruct (Motion.last_mouse self) as [[lx ly] |] eqn:E.
      * rewrite (motion_mouseMoveEvent_ok self lx ly x y E). cbn [bind].
        rewrite IH. cbn [Motion.last_mouse].
        split; intros _; left; discriminate.
      * unfold Motion.mouseMoveEvent. rewrite E. cbn [bind].
        split; [intros [s Hs]; discriminate | intros [H | H]; [congruence | discriminate]].
Qed.

Lemma static_run_ok_iff (cfg : Static.Config) (es : list event) :
  forall self : Static.OrbitViewer,
    (exists self', Static.run cfg self es = Ok self') <->
    (Static.last_mouse self <> None \/ press_first es = true).
Proof.
  induction es as [| e es IH]; intros self.
  - cbn. split; [right; reflexivity | exists self; reflexivity].
  - destruct e as [delta | x y | x y]; cbn [Static.run Static.handle press_first].
    + rewrite static_wheelEvent_ok. cbn [bind]. rewrite IH. reflexivity.
    + cbn [Static.mousePressEvent bind]. rewrite IH.
      cbn [Static.last_mouse Static.set_last_mouse].
      split; intros _; [right; reflexivity | left; discriminate].
    + destruct (Static.last_mouse self) as [[lx ly] |] eqn:E.
      * rewrite (static_mouseMoveEvent_ok self lx ly x y E). cbn [bind].
        rewrite IH. cbn [Static.last_mouse].
        split; intros _; left; discriminate.
      * unfold Static.mouseMoveEvent. rewrite E. cbn [bind].
        split; [intros [s Hs]; discriminate | intros [H | H]; [congruence | discriminate]].
Qed.

(** A move event delivered to a freshly built viewer, before any press:
    [self.last_mouse] does not exist yet. *)
Lemma move_before_press_raises :
  Motion.run Motion.CONFIG (Motion.init [(0, 0, 0)] (1, 0, 0)) [MouseMove 110 130]
  = Raise AttributeError /\
  Static.run Static.CONFIG (Static.init [(0, 0, 0)] [(0, 0, 0)] (1, 0, 0))
    [MouseMove 110 130]
  = Raise AttributeError.
Proof. split; reflexivity. Qed.

(** C9, amended.  A sequence of press, move and wheel events is handled to
    the end, each handler returning a new camera state, exactly when no move
    arrives before a pointer position has been recorded: the viewer already
    holds one, or the first pointer event of the sequence is a press.  Wheel
    events may come at any point. *)
Theorem input_run_total_after_press :
  (forall (cfg : Motion.Config) (self : Motion.OrbitViewer) (es : list event),
      (exists self', Motion.run cfg self es = Ok self') <->
      (Motion.last_mouse self <> None \/ press_first es = true)) /\
  (forall (cfg : Static.Config) (self : Static.OrbitViewer) (es : list event),
      (exists self', Static.run cfg self es = Ok self') <->
      (Static.last_mouse self <> None \/ press_first es = true)).
Proof.
  split; intros cfg self es.
  - apply motion_run_ok_iff.
  - apply static_run_ok_iff.
Qed.

Lemma input_run_total_after_press_witness :
  exists self',
    Motion.run Motion.CONFIG (Motion.init [(0, 0, 0)] (1, 0, 0))
      [Wheel 120; MousePress 100 100; MouseMove 110 130; Wheel (-240);
       MouseMove 90 95]
    = Ok self'.
Proof.
  apply (proj2 (proj1 input_run_total_after_press Motion.CONFIG
                  (Motion.init [(0, 0, 0)] (1, 0, 0)) _)).
  right. reflexivity.
Defined.

(** ** Viewport resize *)

Lemma truediv_nonzero (w h : Z) :
  h <> 0%Z ->
  Py.truediv (inject_Z w) (inject_Z h) = Ok (inject_Z w / inject_Z h).
Proof.
  intros Hh. unfold Py.truediv.
  destruct (Qeq_bool (inject_Z h) 0) eqn:E; [| reflexivity].
  apply Qeq_bool_eq in E. unfold Qeq in E. cbn in E. lia.
Qed.

(** C8.  For every viewport size [(w, h)] the resize handler succeeds and
    sets up the projection with field of view 45 degrees, near plane 1000 and
    far plane 1e10; the aspect ratio is [w / h] when [h] is not zero and 1
    when [h = 0], so no division by zero is ever attempted.  Both viewers. *)
Theorem resize_projection :
  (forall w h : Z,
      Motion.resizeGL w h =
      Ok [glViewport 0 0 w h;
          glMatrixMode GL_PROJECTION;
          glLoadIdentity;
          gluPerspective 45
            (if Z.eqb h 0 then 1 else inject_Z w / inject_Z h) 1000 1e10;
          glMatrixMode GL_MODELVIEW]) /\
  (forall w h : Z,
      Static.resizeGL w h =
      Ok [glViewport 0 0 w h;
          glMatrixMode GL_PROJECTION;
          glLoadIdentity;
          gluPerspective 45
            (if Z.eqb h 0 then 1 else inject_Z w / inject_Z h) 1000 1e10;
          glMatrixMode GL_MODELVIEW]).
Proof.
  split; intros w h.
  - unfold Motion.resizeGL, Py.truth.
    destruct (Z.eqb_spec h 0) as [-> | Hh]; cbn [negb bind]; [reflexivity |].
    rewrite (truediv_nonzero w h Hh). reflexivity.
  - unfold Static.resizeGL, Py.truth.
    destruct (Z.eqb_spec h 0) as [-> | Hh]; cbn [negb bind]; [reflexivity |].
    rewrite (truediv_nonzero w h Hh). reflexivity.
Qed.

(** ** The animation clock *)

(** [int] of a number that is an integer. *)
Lemma int_of_integer (q : Q) (m : Z) : q == inject_Z m -> Py.int q = m.
Proof.
  unfold Qeq, Py.int. cbn [Qnum Qden inject_Z]. intros H.
  rewrite Z.mul_1_r in H. rewrite H. apply Z.quot_mul. discriminate.
Qed.

(** On a number that is not negative [int] is the floor. *)
Lemma int_nonneg_floor (q : Q) : 0 <= q -> Py.int q = Qfloor q.
Proof.
  destruct q as [n d]. unfold Qle, Py.int, Qfloor. cbn [Qnum Qden]. intros H.
  apply Z.quot_div_nonneg; lia.
Qed.

Lemma mod_ok (x : Q) (L : Z) :
  (0 < L)%Z ->
  Py.mod_ x (inject_Z L)
  = Ok (x - inject_Z (Qfloor (x / inject_Z L)) * inject_Z L).
Proof.
  intros HL. unfold Py.mod_.
  destruct (Qeq_bool (inject_Z L) 0) eqn:E; [| reflexivity].
  apply Qeq_bool_eq in E. unfold Qeq in E. cbn in E. lia.
Qed.

(** The remainder by a positive length lies in [[0, L)]. *)
Lemma mod_range (x : Q) (L : Z) :
  (0 < L)%Z ->
  0 <= x - inject_Z (Qfloor (x / inject_Z L)) * inject_Z L < inject_Z L.
Proof.
  intros HL.
  assert (HLq : 0 < inject_Z L) by (rewrite Zlt_Qlt in HL; exact HL).
  assert (Hx : x / inject_Z L * inject_Z L == x)
    by (field; intros E; rewrite E in HLq; apply (Qlt_irrefl 0 HLq)).
  pose proof (Qfloor_le (x / inject_Z L)) as Hlo.
  pose proof (Qlt_floor (x / inject_Z L)) as Hhi.
  rewrite inject_Z_plus in Hhi. change (inject_Z 1) with 1 in Hhi.
  apply (Qmult_le_compat_r _ _ (inject_Z L)) in Hlo; [| apply Qlt_le_weak, HLq].
  apply (Qmult_lt_compat_r _ _ (inject_Z L)) in Hhi; [| exact HLq].
  rewrite Hx in Hlo, Hhi.
  set (f := inject_Z (Qfloor (x / inject_Z L))) in *.
  split; Lqa.lra.
Qed.

(** The remainder of an integer by a positive length is the integer
    remainder. *)
Lemma mod_integer (x : Q) (a L : Z) :
  (0 < L)%Z ->
  x == inject_Z a ->
  x - inject_Z (Qfloor (x / inject_Z L)) * inject_Z L == inject_Z (a mod L).
Proof.
  intros HL Hx.
  assert (Hf : Qfloor (x / inject_Z L) = (a / L)%Z).
  { rewrite Zdiv_Qdiv. apply Qfloor_comp. rewrite Hx. reflexivity. }
  rewrite Hf, Hx, Z.mod_eq by lia.
  unfold Z.sub. rewrite inject_Z_plus, inject_Z_opp, inject_Z_mult.
  Lqa.lra.
Qed.

Lemma update_animation_ok (cfg : Motion.Config) (self : Motion.OrbitViewer) :
  Motion.xyz self <> [] ->
  Motion.update_animation cfg self =
  Ok (Motion.set_index self
        (Py.int
           (inject_Z (Motion.index self) + Motion.time_speed cfg
            - inject_Z
                (Qfloor
                   ((inject_Z (Motion.index self) + Motion.time_speed cfg)
                    / inject_Z (Z.of_nat (length (Motion.xyz self)))))
              * inject_Z (Z.of_nat (length (Motion.xyz self)))))).
Proof.
  intros Hne. unfold Motion.update_animation.
  rewrite mod_ok; [reflexivity |].
  destruct (Motion.xyz self); [congruence | cbn [length]; lia].
Qed.

Lemma length_pos_of_nonempty {A : Type} (l : list A) :
  l <> [] -> (0 < Z.of_nat (length l))%Z.
Proof. destruct l; [congruence | cbn [length]; lia]. Qed.

(** Whatever the speed, a tick leaves an index that falls inside the
    trajectory. *)
Lemma update_animation_index_valid (cfg : Motion.Config)
    (self : Motion.OrbitViewer) :
  Motion.xyz self <> [] ->
  exists self',
    Motion.update_animation cfg self = Ok self' /\
    (0 <= Motion.index self' < Z.of_nat (length (Motion.xyz self')))%Z.
Proof.
  intros Hne. eexists. split; [apply (update_animation_ok cfg self Hne) |].
  cbn [Motion.index Motion.xyz Motion.set_index].
  pose proof (length_pos_of_nonempty _ Hne) as HL.
  pose proof (mod_range (inject_Z (Motion.index self) + Motion.time_speed cfg)
                _ HL) as [Hlo Hhi].
  rewrite int_nonneg_floor by exact Hlo.
  split.
  - change 0%Z with (Qfloor 0). apply Qfloor_resp_le, Hlo.
  - rewrite Zlt_Qlt. eapply Qle_lt_trans; [apply Qfloor_le | exact Hhi].
Qed.

(** With a whole number of samples per tick, one tick moves the index by
    that number, modulo the length. *)
Lemma update_animation_integer_speed (k : Z) (self : Motion.OrbitViewer) :
  Motion.xyz self <> [] ->
  Motion.update_animation (with_time_speed (inject_Z k)) self =
  Ok (Motion.set_index self
        ((Motion.index self + k) mod Z.of_nat (length (Motion.xyz self)))).
Proof.
  intros Hne. rewrite (update_animation_ok _ _ Hne). do 2 f_equal.
  apply int_of_integer.
  apply mod_integer; [apply length_pos_of_nonempty, Hne |].
  cbn [Motion.time_speed with_time_speed]. rewrite inject_Z_plus. reflexivity.
Qed.

Lemma ticks_integer_speed (k : Z) (n : nat) :
  forall self : Motion.OrbitViewer,
    Motion.xyz self <> [] ->
    (0 <= Motion.index self < Z.of_nat (length (Motion.xyz self)))%Z ->
    Motion.ticks (with_time_speed (inject_Z k)) n self =
    Ok (Motion.set_index self
          ((Motion.index self + Z.of_nat n * k)
           mod Z.of_nat (length (Motion.xyz self)))).
Proof.
  induction n as [| n IH]; intros self Hne Hi.
  - cbn [Motion.ticks]. rewrite Z.mul_0_l, Z.add_0_r, Z.mod_small by exact Hi.
    destruct self; reflexivity.
  - cbn [Motion.ticks]. rewrite (update_animation_integer_speed k self Hne).
    cbn [bind]. rewrite IH.
    + cbn [Motion.index Motion.xyz Motion.set_index]. unfold Motion.set_index.
      cbn [Motion.index Motion.xyz Motion.mars_sun Motion.rot_x Motion.rot_y
           Motion.zoom Motion.last_mouse].
      do 2 f_equal.
      rewrite Zplus_mod_idemp_l. f_equal. lia.
    + exact Hne.
    + cbn [Motion.index Motion.xyz Motion.set_index].
      apply Z.mod_pos_bound, length_pos_of_nonempty, Hne.
Qed.

(** C2 (defect of the code).  With ["time_speed": 0.1], a value the comments
    of [CONFIG] give as a ten-fold slow-down, the stored index is truncated
    at every tick and never leaves its place: on a trajectory of 100 samples
    ten ticks from index 0 end on index 0, where
    [(initial_cursor + n * time_speed) mod trajectory_length] is 1. *)
Theorem cursor_stalls_at_fractional_speed :
  let self := Motion.init (repeat (0, 0, 0) 100) (1, 0, 0) in
  Motion.index self = 0%Z /\
  Motion.ticks (with_time_speed 0.1) 10 self = Ok self /\
  exists q, cursor_after 0 10 0.1 100 = Ok q /\ q == 1.
Proof.
  cbv zeta. split; [reflexivity |]. split; [vm_compute; reflexivity |].
  eexists. split; [vm_compute; reflexivity | reflexivity].
Qed.

(** C6 (defect of the code).  With ["time_speed": 1.5] and a trajectory of 3
    samples, [L / time_speed = 2] is an integer, yet two ticks from index 0
    end on index 2, not back on 0: the index is truncated to 1 after the
    first tick and to 2 after the second. *)
Theorem round_trip_broken_at_fractional_speed :
  let self := Motion.init (repeat (0, 0, 0) 3) (1, 0, 0) in
  inject_Z 3 / 1.5 == 2 /\
  Motion.index self = 0%Z /\
  Motion.ticks (with_time_speed 1.5) 1 self = Ok (Motion.set_index self 1) /\
  Motion.ticks (with_time_speed 1.5) 2 self = Ok (Motion.set_index self 2).
Proof.
  cbv zeta. repeat split; vm_compute; reflexivity.
Qed.

(** X1.  With a speed that is not negative, on a trajectory that is not
    empty, a tick of the animation clock from an index that is not negative
    succeeds and leaves an integer index inside the trajectory. *)
Theorem tick_index_valid (cfg : Motion.Config) (self : Motion.OrbitViewer) :
  0 <= Motion.time_speed cfg ->
  (0 <= Motion.index self)%Z ->
  Motion.xyz self <> [] ->
  exists self',
    Motion.update_animation cfg self = Ok self' /\
    (0 <= Motion.index self' < Z.of_nat (length (Motion.xyz self')))%Z.
Proof. intros _ _. apply update_animation_index_valid. Qed.

Lemma tick_index_valid_witness :
  exists self',
    Motion.update_animation Motion.CONFIG
      (Motion.init [(1, 0, 0); (0, 1, 0); (0, 0, 1)] (1, 0, 0)) = Ok self' /\
    (0 <= Motion.index self' < Z.of_nat (length (Motion.xyz self')))%Z.
Proof.
  apply (tick_index_valid Motion.CONFIG
           (Motion.init [(1, 0, 0); (0, 1, 0); (0, 0, 1)] (1, 0, 0))).
  - discriminate.
  - discriminate.
  - discriminate.
Defined.



(** X3.  When ["time_speed"] is a whole number [k > 0] and the length of
    the trajectory is [m * k], driving the clock for [m = L / k] ticks from a
    valid index brings the index back to where it started. *)
Theorem round_trip_integer_speed (k : Z) (m : nat)
    (self : Motion.OrbitViewer) :
  (0 < k)%Z ->
  Z.of_nat (length (Motion.xyz self)) = (Z.of_nat m * k)%Z ->
  (0 <= Motion.index self < Z.of_nat (length (Motion.xyz self)))%Z ->
  exists self',
    Motion.ticks (with_time_speed (inject_Z k)) m self = Ok self' /\
    Motion.index self' = Motion.index self.
Proof.
  intros Hk HL Hi.
  assert (Hne : Motion.xyz self <> []).
  { intros E. rewrite E in Hi. cbn in Hi. lia. }
  eexists. split; [apply (ticks_integer_speed k m self Hne Hi) |].
  cbn [Motion.index Motion.set_index].
  rewrite <- HL, Z.add_mod, Z.mod_same, Z.add_0_r, Z.mod_mod, Z.mod_small
    by lia.
  reflexivity.
Qed.

Lemma round_trip_integer_speed_witness :
  exists self',
    Motion.ticks (with_time_speed (inject_Z 5)) 20
      (Motion.set_index (Motion.init (repeat (0, 0, 0) 100) (1, 0, 0)) 98)
    = Ok self' /\
    Motion.index self' = 98%Z.
Proof.
  apply (round_trip_integer_speed 5 20
           (Motion.set_index (Motion.init (repeat (0, 0, 0) 100) (1, 0, 0)) 98)).
  - lia.
  - reflexivity.
  - cbn. lia.
Defined.

(** ** [range] and indexing *)

Lemma range_from_steps (stop s : Z) (c : nat) :
  (0 < s)%Z ->
  forall (fuel : nat) (i : Z),
    (c <= fuel)%nat ->
    (stop <= i + Z.of_nat c * s)%Z ->
    (c = O \/ i + (Z.of_nat c - 1) * s < stop)%Z ->
    Py.range_from fuel i stop s
    = map (fun k => (i + Z.of_nat k * s)%Z) (seq 0 c).
Proof.
  intros Hs. induction c as [| c IH]; intros fuel i Hfuel Hstop Hlast.
  - cbn [seq map]. destruct fuel as [| fuel]; [reflexivity |].
    cbn [Py.range_from].
    destruct (Z.ltb_spec 0 s); [| lia].
    destruct (Z.ltb_spec i stop); [lia | reflexivity].
  - destruct fuel as [| fuel]; [lia |].
    cbn [Py.range_from].
    destruct (Z.ltb_spec 0 s); [| lia].
    destruct Hlast as [Hlast | Hlast]; [discriminate |].
    destruct (Z.ltb_spec i stop); [| nia].
    cbn [seq map]. f_equal; [lia |].
    rewrite (IH fuel (i + s)%Z); [| lia | lia |].
    + rewrite <- seq_shift, map_map. apply map_ext. intros k. lia.
    + destruct c as [| c]; [left; reflexivity | right; lia].
Qed.

Lemma strided_count_spec (n : nat) (s : Z) :
  (0 < s)%Z ->
  (Z.of_nat n <= Z.of_nat (strided_count n s) * s)%Z /\
  (strided_count n s = O
   \/ (Z.of_nat (strided_count n s) - 1) * s < Z.of_nat n)%Z /\
  (strided_count n s <= n)%nat.
Proof.
  intros Hs. unfold strided_count.
  set (q := ((Z.of_nat n + s - 1) / s)%Z).
  assert (Hq : (q * s <= Z.of_nat n + s - 1 < q * s + s)%Z).
  { unfold q. pose proof (Z.mul_div_le (Z.of_nat n + s - 1) s Hs).
    pose proof (Z.mul_succ_div_gt (Z.of_nat n + s - 1) s Hs). lia. }
  assert (Hq0 : (0 <= q)%Z) by (apply Z.div_pos; lia).
  rewrite Z2Nat.id by exact Hq0.
  split; [lia |]. split.
  - destruct (Z.eq_dec q 0) as [-> | Hne]; [left; reflexivity | right; lia].
  - apply Nat2Z.inj_le. rewrite Z2Nat.id by exact Hq0. nia.
Qed.

Lemma range_strided (n : nat) (s : Z) :
  (0 < s)%Z ->
  Py.range 0 (Z.of_nat n) s = Ok (strided_indices n s).
Proof.
  intros Hs. unfold Py.range, strided_indices.
  destruct (Z.eqb_spec s 0); [lia |]. f_equal.
  destruct (strided_count_spec n s Hs) as (H1 & H2 & H3).
  rewrite (range_from_steps (Z.of_nat n) s (strided_count n s) Hs).
  - reflexivity.
  - rewrite Z.sub_0_r, Z.abs_eq, Nat2Z.id by lia. exact H3.
  - lia.
  - destruct H2 as [H2 | H2]; [left; exact H2 | right; lia].
Qed.

Lemma strided_indices_in (n : nat) (s i : Z) :
  (0 < s)%Z ->
  In i (strided_indices n s) <->
  (0 <= i < Z.of_nat n)%Z /\ (i mod s = 0)%Z.
Proof.
  intros Hs. unfold strided_indices. rewrite in_map_iff.
  destruct (strided_count_spec n s Hs) as (H1 & H2 & H3).
  split.
  - intros (k & <- & Hk). apply in_seq in Hk.
    split; [| apply Z.mod_mul; lia].
    destruct H2 as [H2 | H2]; [lia | nia].
  - intros ([Hi0 Hin] & Hmod).
    exists (Z.to_nat (i / s)).
    assert (Hq : (0 <= i / s)%Z) by (apply Z.div_pos; lia).
    assert (Hi : (i = s * (i / s))%Z) by (apply Z.div_exact; lia).
    rewrite Z2Nat.id by exact Hq. split; [lia |].
    apply in_seq. split; [lia |]. cbn.
    apply Nat2Z.inj_lt. rewrite Z2Nat.id by exact Hq. nia.
Qed.

Lemma getitem_in_range {A : Type} (l : list A) (i : Z) (d : A) :
  (0 <= i < Z.of_nat (length l))%Z ->
  Py.getitem l i = Ok (nth (Z.to_nat i) l d).
Proof.
  intros Hi. unfold Py.getitem.
  destruct (Z.ltb_spec i 0); [lia |].
  destruct (Z.ltb_spec i 0); [lia |].
  destruct (nth_error l (Z.to_nat i)) as [a |] eqn:E.
  - f_equal. symmetry. apply nth_error_nth. exact E.
  - apply nth_error_None in E. lia.
Qed.

(** ** The pipeline on the viewers' traces *)

Lemma exec_app (st : state) (a b : list gl_cmd) :
  exec st (a ++ b) = exec (exec st a) b.
Proof. apply fold_left_app. Qed.

Lemma with_drawn_nil (st : state) : with_drawn st (assembling st) [] = st.
Proof. destruct st. unfold with_drawn. cbn. rewrite app_nil_r. reflexivity. Qed.

Lemma with_drawn_app (st : state) (a b : option (prim_mode * option placed))
    (xs ys : list item) :
  with_drawn (with_drawn st a xs) b ys = with_drawn st b (xs ++ ys).
Proof. unfold with_drawn. cbn. rewrite app_assoc. reflexivity. Qed.

Lemma velocity_lines_ok (cfg : Static.Config) (self : Static.OrbitViewer)
    (indices : list Z) :
  length (Static.vel self) = length (Static.pos self) ->
  Forall (fun i => (0 <= i < Z.of_nat (length (Static.pos self)))%Z) indices ->
  Static.velocity_lines cfg self indices
  = Ok (flat_map (velocity_vertices cfg self) indices).
Proof.
  intros Hlen Hall. induction Hall as [| i rest Hi Hrest IH].
  - reflexivity.
  - cbn [Static.velocity_lines flat_map].
    rewrite (getitem_in_range (Static.pos self) i (0, 0, 0)) by exact Hi.
    rewrite (getitem_in_range (Static.vel self) i (0, 0, 0))
      by (rewrite Hlen; exact Hi).
    cbn [bind]. unfold velocity_vertices.
    destruct (nth (Z.to_nat i) (Static.pos self) (0, 0, 0)) as [[x y] z].
    destruct (nth (Z.to_nat i) (Static.vel self) (0, 0, 0)) as [[vx vy] vz].
    rewrite IH. reflexivity.
Qed.

Lemma exec_velocity_vertices (cfg : Static.Config) (self : Static.OrbitViewer)
    (indices : list Z) :
  forall st : state,
    assembling st = Some (GL_LINES, None) ->
    exec st (flat_map (velocity_vertices cfg self) indices)
    = with_drawn st (Some (GL_LINES, None))
        (map (velocity_segment cfg self (modelview st)) indices).
Proof.
  induction indices as [| i rest IH]; intros st Hst.
  - cbn [flat_map map exec fold_left]. rewrite <- Hst.
    symmetry. apply with_drawn_nil.
  - cbn [flat_map map]. rewrite exec_app.
    assert (H1 : exec st (velocity_vertices cfg self i)
                 = with_drawn st (Some (GL_LINES, None))
                     [velocity_segment cfg self (modelview st) i]).
    { unfold velocity_vertices, velocity_segment.
      destruct (nth (Z.to_nat i) (Static.pos self) (0, 0, 0)) as [[x y] z].
      destruct (nth (Z.to_nat i) (Static.vel self) (0, 0, 0)) as [[vx vy] vz].
      cbn [exec fold_left exec1]. unfold vertex at 2. rewrite Hst.
      unfold vertex. cbn. reflexivity. }
    rewrite H1, IH by reflexivity.
    rewrite with_drawn_app. reflexivity.
Qed.

Lemma strided_indices_valid (n : nat) (s : Z) :
  (0 < s)%Z ->
  Forall (fun i => (0 <= i < Z.of_nat n)%Z) (strided_indices n s).
Proof.
  intros Hs. apply Forall_forall. intros i Hi.
  apply (strided_indices_in n s i Hs) in Hi. apply Hi.
Qed.

(** The trace of [draw_velocity_vectors] and what the pipeline makes of it. *)
Lemma velocity_segments_strided_trace (cfg : Static.Config)
    (self : Static.OrbitViewer) :
  length (Static.vel self) = length (Static.pos self) ->
  (0 < Static.velocity_stride cfg)%Z ->
  exists trace,
    Static.draw_velocity_vectors cfg self = Ok trace /\
    forall st : state,
      exec st trace
      = with_drawn st None
          (map (velocity_segment cfg self (modelview st))
             (strided_indices (length (Static.pos self))
                (Static.velocity_stride cfg))).
Proof.
  intros Hlen Hs. eexists. split.
  - unfold Static.draw_velocity_vectors.
    rewrite (range_strided _ _ Hs). cbn [bind].
    rewrite (velocity_lines_ok cfg self _ Hlen (strided_indices_valid _ _ Hs)).
    cbn [bind]. reflexivity.
  - intros st. rewrite exec_app.
    change (exec st [glColor3f 0.3 1.0 0.3; glLineWidth 1.5; glBegin GL_LINES])
      with (set_assembling st (Some (GL_LINES, None))).
    rewrite exec_app, exec_velocity_vertices by reflexivity.
    reflexivity.
Qed.

(** C7.  In the static viewer, when the velocity table is as long as the
    position table and the stride is positive, [draw_velocity_vectors] draws
    exactly one segment per index [0, stride, 2 * stride, ...] below the
    number of samples, in that order, each from the sample's position to
    [position + velocity * velocity_scale]; these indices are the multiples
    of the stride below the number of samples; with stride 10 and 25 samples
    there are exactly 3 segments, for the indices 0, 10 and 20. *)
Theorem velocity_segments_strided (cfg : Static.Config)
    (self : Static.OrbitViewer) :
  length (Static.vel self) = length (Static.pos self) ->
  (0 < Static.velocity_stride cfg)%Z ->
  let n := length (Static.pos self) in
  let stride := Static.velocity_stride cfg in
  exists trace,
    Static.draw_velocity_vectors cfg self = Ok trace /\
    (forall st : state,
        exec st trace
        = with_drawn st None
            (map (velocity_segment cfg self (modelview st))
               (strided_indices n stride))) /\
    (forall i : Z,
        In i (strided_indices n stride) <->
        (0 <= i < Z.of_nat n)%Z /\ (i mod stride = 0)%Z) /\
    (n = 25%nat -> stride = 10%Z ->
     strided_indices n stride = [0; 10; 20]%Z /\
     forall st : state,
       drawn (exec st trace)
       = drawn st ++ [velocity_segment cfg self (modelview st) 0;
                      velocity_segment cfg self (modelview st) 10;
                      velocity_segment cfg self (modelview st) 20]).
Proof.
  intros Hlen Hs n stride.
  destruct (velocity_segments_strided_trace cfg self Hlen Hs)
    as (trace & Htrace & Hexec).
  exists trace. split; [exact Htrace |]. split; [exact Hexec |]. split.
  - intros i. apply strided_indices_in, Hs.
  - intros Hn Hstride.
    assert (Hidx : strided_indices n stride = [0; 10; 20]%Z)
      by (rewrite Hn, Hstride; reflexivity).
    split; [exact Hidx |].
    intros st. rewrite Hexec. fold n stride. rewrite Hidx. reflexivity.
Qed.

Lemma velocity_segments_strided_witness :
  let self :=
    Static.init (repeat (1, 2, 3) 25) (repeat (0.1, 0, 0) 25) (1, 0, 0) in
  exists trace,
    Static.draw_velocity_vectors Static.CONFIG self = Ok trace /\
    forall st : state,
      drawn (exec st trace)
      = drawn st ++ [velocity_segment Static.CONFIG self (modelview st) 0;
                     velocity_segment Static.CONFIG self (modelview st) 10;
                     velocity_segment Static.CONFIG self (modelview st) 20].
Proof.
  intros self.
  destruct (velocity_segments_strided Static.CONFIG self eq_refl eq_refl)
    as (trace & Htrace & _ & _ & H25).
  exists trace. split; [exact Htrace |].
  apply H25; reflexivity.
Defined.

(** ** The view transform *)

Section ViewTransform.

Local Open Scope R_scope.

(** Equality of matrices and points, entry by entry. *)
Ltac mat_eq :=
  repeat match goal with
         | |- (_, _) = (_, _) => apply f_equal2
         end.

Lemma Q2R_zero : Q2R 0 = 0.
Proof. unfold Q2R. cbn. lra. Qed.

Lemma Q2R_one : Q2R 1 = 1.
Proof. unfold Q2R. cbn. lra. Qed.

(** [glRotatef(a, 1, 0, 0)] and [glRotatef(a, 0, 1, 0)] are the rotations
    about the X and the Y axis. *)
Lemma rotation_x (a : R) : rotation a 1 0 0 = Rx a.
Proof.
  unfold rotation, Rx.
  replace (1 * 1 + 0 * 0 + 0 * 0) with 1 by ring. rewrite sqrt_1.
  cbv zeta. mat_eq; field.
Qed.

Lemma rotation_y (a : R) : rotation a 0 1 0 = Ry a.
Proof.
  unfold rotation, Ry.
  replace (0 * 0 + 1 * 1 + 0 * 0) with 1 by ring. rewrite sqrt_1.
  cbv zeta. mat_eq; field.
Qed.

Lemma mmul_identity_l (m : mat) : mmul identity m = m.
Proof.
  destruct m as [[[[[[a00 a01] a02] a03] [[[a10 a11] a12] a13]]
                   [[[a20 a21] a22] a23]] [[[a30 a31] a32] a33]].
  unfold mmul, identity, transpose, mapply, dot.
  mat_eq; ring.
Qed.

Lemma mmul_translation_0 (m : mat) : mmul m (translation 0 0 0) = m.
Proof.
  destruct m as [[[[[[a00 a01] a02] a03] [[[a10 a11] a12] a13]]
                   [[[a20 a21] a22] a23]] [[[a30 a31] a32] a33]].
  unfold mmul, translation, transpose, mapply, dot.
  mat_eq; ring.
Qed.

Lemma mmul_assoc (a b c : mat) : mmul (mmul a b) c = mmul a (mmul b c).
Proof.
  destruct a as [[[[[[a00 a01] a02] a03] [[[a10 a11] a12] a13]]
                   [[[a20 a21] a22] a23]] [[[a30 a31] a32] a33]].
  destruct b as [[[[[[b00 b01] b02] b03] [[[b10 b11] b12] b13]]
                   [[[b20 b21] b22] b23]] [[[b30 b31] b32] b33]].
  destruct c as [[[[[[c00 c01] c02] c03] [[[c10 c11] c12] c13]]
                   [[[c20 c21] c22] c23]] [[[c30 c31] c32] c33]].
  unfold mmul, transpose, mapply, dot.
  mat_eq; ring.
Qed.

Lemma mapply_mmul (a b : mat) (v : vec4) :
  mapply (mmul a b) v = mapply a (mapply b v).
Proof.
  destruct a as [[[[[[a00 a01] a02] a03] [[[a10 a11] a12] a13]]
                   [[[a20 a21] a22] a23]] [[[a30 a31] a32] a33]].
  destruct b as [[[[[[b00 b01] b02] b03] [[[b10 b11] b12] b13]]
                   [[[b20 b21] b22] b23]] [[[b30 b31] b32] b33]].
  destruct v as [[[x y] z] w].
  unfold mmul, transpose, mapply, dot.
  mat_eq; ring.
Qed.

(** The matrix the three camera calls of [paintGL] build on the identity. *)
Lemma camera_calls_view (rx ry z : Q) :
  mmul (mmul (mmul identity (translation (Q2R 0) (Q2R 0) (Q2R (- z))))
             (rotation (Q2R rx) (Q2R 1) (Q2R 0) (Q2R 0)))
       (rotation (Q2R ry) (Q2R 0) (Q2R 1) (Q2R 0))
  = view rx ry z.
Proof.
  rewrite Q2R_zero, Q2R_one, rotation_x, rotation_y, mmul_identity_l.
  unfold view. apply mmul_assoc.
Qed.

End ViewTransform.

(** ** The pipeline on a frame *)

Lemma exec_camera (st : state) (rx ry z : Q) :
  mode st = GL_MODELVIEW ->
  exec st [glClear;
           glLoadIdentity;
           glTranslatef 0 0 (- z);
           glRotatef rx 1 0 0;
           glRotatef ry 0 1 0]
  = mkState GL_MODELVIEW (view rx ry z) (projection st) (modelview_stack st)
      (projection_stack st) (assembling st) (drawn st).
Proof.
  destruct st as [m mv pj ms ps a d]. cbn [mode]. intros ->.
  cbn [exec fold_left exec1 set_current current mode modelview projection
       modelview_stack projection_stack assembling drawn].
  rewrite camera_calls_view. reflexivity.
Qed.

(** A quadric drawn between [glPushMatrix] and [glPopMatrix], with or without
    a translation to its centre: the sphere is placed by the matrix built
    inside the pair, and the pair restores the matrix and the stack. *)
Lemma exec_sphere_at (st : state) (x y z radius : Q) (slices stacks : Z)
    (colour : list gl_cmd) :
  mode st = GL_MODELVIEW ->
  Forall (fun c => forall s, exec1 s c = s) colour ->
  exec st ([glPushMatrix; glTranslatef x y z] ++ colour
           ++ [gluSphere radius slices stacks; glPopMatrix])
  = with_drawn st (assembling st)
      [Sphere (mmul (modelview st) (translation (Q2R x) (Q2R y) (Q2R z)))
         radius slices stacks].
Proof.
  intros Hmode Hcolour. rewrite !exec_app.
  assert (Hskip : forall s, exec s colour = s).
  { induction Hcolour as [| c cs Hc _ IH]; intros s; [reflexivity |].
    cbn [exec fold_left]. rewrite Hc. apply IH. }
  rewrite Hskip.
  destruct st as [m mv pj ms ps a d]. cbn [mode] in Hmode. subst m.
  reflexivity.
Qed.

Lemma exec_sphere_here (st : state) (radius : Q) (slices stacks : Z)
    (colour : list gl_cmd) :
  mode st = GL_MODELVIEW ->
  Forall (fun c => forall s, exec1 s c = s) colour ->
  exec st ([glPushMatrix] ++ colour
           ++ [gluSphere radius slices stacks; glPopMatrix])
  = with_drawn st (assembling st)
      [Sphere (modelview st) radius slices stacks].
Proof.
  intros Hmode Hcolour. rewrite !exec_app.
  assert (Hskip : forall s, exec s colour = s).
  { induction Hcolour as [| c cs Hc _ IH]; intros s; [reflexivity |].
    cbn [exec fold_left]. rewrite Hc. apply IH. }
  rewrite Hskip.
  destruct st as [m mv pj ms ps a d]. cbn [mode] in Hmode. subst m.
  reflexivity.
Qed.

Lemma exec_strip_vertices (ps : list vec3) :
  forall (st : state) (prev : vec3),
    assembling st = Some (GL_LINE_STRIP, Some (modelview st, prev)) ->
    exec st (map (fun '(x, y, z) => glVertex3f x y z) ps)
    = with_drawn st
        (Some (GL_LINE_STRIP,
               Some (modelview st, fold_left (fun _ p => p) ps prev)))
        (strip_from (modelview st) prev ps).
Proof.
  induction ps as [| p ps IH]; intros st prev Hst.
  - cbn [map exec fold_left strip_from]. rewrite <- Hst.
    symmetry. apply with_drawn_nil.
  - cbn [map strip_from]. destruct p as [[x y] z].
    change (exec st (glVertex3f x y z :: ?l))
      with (exec (vertex st (x, y, z)) l).
    unfold vertex at 1. rewrite Hst.
    rewrite (IH _ (x, y, z)) by reflexivity.
    cbn [modelview emit]. unfold with_drawn.
    cbn [mode modelview projection modelview_stack projection_stack drawn emit].
    rewrite <- app_assoc. reflexivity.
Qed.

Lemma exec_line_strip (st : state) (colour : gl_cmd) (ps : list vec3) :
  (forall s, exec1 s colour = s) ->
  exec st ([colour; glBegin GL_LINE_STRIP]
           ++ map (fun '(x, y, z) => glVertex3f x y z) ps
           ++ [glEnd])
  = with_drawn st None (line_strip (modelview st) ps).
Proof.
  intros Hcolour. rewrite exec_app.
  cbn [exec fold_left]. rewrite Hcolour.
  change (fold_left exec1 ?l ?s) with (exec s l).
  destruct ps as [| [[x y] z] ps].
  - cbn. unfold with_drawn. rewrite app_nil_r. reflexivity.
  - cbn [map app]. change (exec ?s (glVertex3f x y z :: ?l))
      with (exec (vertex s (x, y, z)) l).
    rewrite exec_app, (exec_strip_vertices ps _ (x, y, z)) by reflexivity.
    reflexivity.
Qed.

Lemma exec_point_vertices (ps : list vec3) :
  forall st : state,
    assembling st = Some (GL_POINTS, None) ->
    exec st (map (fun '(x, y, z) => glVertex3f x y z) ps)
    = with_drawn st (Some (GL_POINTS, None))
        (map (fun p => Point (modelview st, p)) ps).
Proof.
  induction ps as [| p ps IH]; intros st Hst.
  - cbn [map exec fold_left]. rewrite <- Hst. symmetry. apply with_drawn_nil.
  - cbn [map]. destruct p as [[x y] z].
    change (exec st (glVertex3f x y z :: ?l))
      with (exec (vertex st (x, y, z)) l).
    unfold vertex. rewrite Hst. rewrite IH by reflexivity.
    unfold with_drawn.
    cbn [mode modelview projection modelview_stack projection_stack drawn emit].
    rewrite <- app_assoc. reflexivity.
Qed.

Lemma under_view_strip (v : mat) (ps : list vec3) :
  Forall (under_view v) (line_strip v ps).
Proof.
  destruct ps as [| p ps]; [constructor |]. cbn [line_strip].
  revert p. induction ps as [| q ps IH]; intros p; cbn [strip_from].
  - constructor.
  - constructor; [split; reflexivity | apply IH].
Qed.

Lemma under_view_points (v : mat) (ps : list vec3) :
  Forall (under_view v) (map (fun p => Point (v, p)) ps).
Proof.
  induction ps as [| p ps IH]; cbn [map]; constructor;
    [reflexivity | exact IH].
Qed.

Lemma under_view_velocity (cfg : Static.Config) (self : Static.OrbitViewer)
    (v : mat) (indices : list Z) :
  Forall (under_view v) (map (velocity_segment cfg self v) indices).
Proof.
  induction indices as [| i rest IH]; cbn [map]; constructor;
    [split; reflexivity | exact IH].
Qed.

Lemma under_view_sphere_at (v : mat) (x y z radius : Q) (slices stacks : Z) :
  under_view v
    (Sphere (mmul v (translation (Q2R x) (Q2R y) (Q2R z))) radius slices stacks).
Proof. exists (x, y, z). reflexivity. Qed.

Lemma under_view_sphere_here (v : mat) (radius : Q) (slices stacks : Z) :
  under_view v (Sphere v radius slices stacks).
Proof.
  exists (0, 0, 0). cbv zeta iota beta.
  rewrite Q2R_zero, mmul_translation_0. reflexivity.
Qed.

Ltac skip_colour :=
  repeat (constructor; [intros ?; reflexivity |]); constructor.

(** The frame of the animated viewer, item by item. *)
Lemma motion_frame (cfg : Motion.Config) (self : Motion.OrbitViewer)
    (st : state) (trace : list gl_cmd) :
  mode st = GL_MODELVIEW ->
  Motion.paintGL cfg self = Ok trace ->
  let v := view (Motion.rot_x self) (Motion.rot_y self) (Motion.zoom self) in
  exists sx sy sz x y z,
    vscale (vneg (Motion.mars_sun self)) (Motion.sun_distance_scale cfg)
    = (sx, sy, sz) /\
    Py.getitem (Motion.xyz self) (Motion.index self) = Ok (x, y, z) /\
    exec st trace
    = with_drawn
        (mkState GL_MODELVIEW v (projection st) (modelview_stack st)
           (projection_stack st) (assembling st) (drawn st))
        None
        ([Sphere (mmul v (translation (Q2R sx) (Q2R sy) (Q2R sz)))
            (Motion.sun_radius_km cfg) 48 48;
          Sphere v (Motion.mars_radius_km cfg) 36 36;
          Sphere v (Motion.mars_radius_km cfg * Motion.atmosphere_scale cfg)
            36 36]
         ++ line_strip v (Motion.xyz self)
         ++ [Sphere (mmul v (translation (Q2R x) (Q2R y) (Q2R z)))
               (Motion.spacecraft_scale cfg) 16 16]).
Proof.
  intros Hmode Hpaint v.
  unfold Motion.paintGL, Motion.draw_spacecraft in Hpaint.
  destruct (Py.getitem (Motion.xyz self) (Motion.index self))
    as [[[x y] z] |] eqn:Hget; cbn [bind] in Hpaint; [| discriminate].
  injection Hpaint as <-.
  unfold Motion.draw_sun.
  destruct (vscale (vneg (Motion.mars_sun self)) (Motion.sun_distance_scale cfg))
    as [[sx sy] sz] eqn:Hsun.
  exists sx, sy, sz, x, y, z. split; [reflexivity |]. split; [reflexivity |].
  set (st1 := mkState GL_MODELVIEW v (projection st) (modelview_stack st)
                (projection_stack st) (assembling st) (drawn st)).
  match goal with
  | |- exec st ?t = _ =>
      change t with
        ([glClear; glLoadIdentity; glTranslatef 0 0 (- Motion.zoom self);
          glRotatef (Motion.rot_x self) 1 0 0;
          glRotatef (Motion.rot_y self) 0 1 0]
         ++ ([glPushMatrix; glTranslatef sx sy sz]
             ++ [glColor3f 1.0 0.75 0.2; gluQuadricDrawStyle GLU_LINE;
                 glLineWidth 1.5]
             ++ [gluSphere (Motion.sun_radius_km cfg) 48 48; glPopMatrix])
         ++ ([glPushMatrix]
             ++ [glColor3f 0.9 0.3 0.3; gluQuadricDrawStyle GLU_LINE]
             ++ [gluSphere (Motion.mars_radius_km cfg) 36 36; glPopMatrix])
         ++ ([glPushMatrix]
             ++ [glColor4f 0.4 0.6 1.0 (Motion.atmosphere_alpha cfg);
                 gluQuadricDrawStyle GLU_FILL]
             ++ [gluSphere
                   (Motion.mars_radius_km cfg * Motion.atmosphere_scale cfg)
                   36 36;
                 glPopMatrix])
         ++ ([glColor3f 0.3 0.8 1.0; glBegin GL_LINE_STRIP]
             ++ map (fun '(x, y, z) => glVertex3f x y z) (Motion.xyz self)
             ++ [glEnd])
         ++ ([glPushMatrix; glTranslatef x y z]
             ++ [glColor3f 1.0 1.0 0.3; gluQuadricDrawStyle GLU_FILL]
             ++ [gluSphere (Motion.spacecraft_scale cfg) 16 16; glPopMatrix]))
  end.
  rewrite exec_app, (exec_camera st _ _ _ Hmode). fold v. fold st1.
  rewrite exec_app, exec_sphere_at by (reflexivity || skip_colour).
  rewrite exec_app, exec_sphere_here by (reflexivity || skip_colour).
  rewrite exec_app, exec_sphere_here by (reflexivity || skip_colour).
  rewrite exec_app, exec_line_strip by (intros ?; reflexivity).
  rewrite exec_sphere_at by (reflexivity || skip_colour).
  rewrite !with_drawn_app. reflexivity.
Qed.

(** The frame of the static viewer, item by item. *)
Lemma static_frame (cfg : Static.Config) (self : Static.OrbitViewer)
    (st : state) :
  mode st = GL_MODELVIEW ->
  length (Static.vel self) = length (Static.pos self) ->
  (0 < Static.velocity_stride cfg)%Z ->
  let v := view (Static.rot_x self) (Static.rot_y self) (Static.zoom self) in
  exists sx sy sz trace,
    vscale (vneg (Static.mars_sun self)) (Static.sun_distance_scale cfg)
    = (sx, sy, sz) /\
    Static.paintGL cfg self = Ok trace /\
    exec st trace
    = with_drawn
        (mkState GL_MODELVIEW v (projection st) (modelview_stack st)
           (projection_stack st) (assembling st) (drawn st))
        None
        ([Sphere (mmul v (translation (Q2R sx) (Q2R sy) (Q2R sz)))
            (Static.sun_radius_km cfg) 48 48;
          Sphere v (Static.mars_radius_km cfg) 36 36;
          Sphere v (Static.mars_radius_km cfg * Static.atmosphere_scale cfg)
            36 36]
         ++ map (fun p => Point (v, p)) (Static.pos self)
         ++ map (velocity_segment cfg self v)
              (strided_indices (length (Static.pos self))
                 (Static.velocity_stride cfg))).
Proof.
  intros Hmode Hlen Hs v.
  destruct (velocity_segments_strided_trace cfg self Hlen Hs)
    as (vectors & Hvectors & Hexec).
  destruct (vscale (vneg (Static.mars_sun self)) (Static.sun_distance_scale cfg))
    as [[sx sy] sz] eqn:Hsun.
  exists sx, sy, sz. eexists. split; [reflexivity |]. split.
  - unfold Static.paintGL. rewrite Hvectors. cbn [bind]. reflexivity.
  - set (st1 := mkState GL_MODELVIEW v (projection st) (modelview_stack st)
                  (projection_stack st) (assembling st) (drawn st)).
    unfold Static.draw_sun. rewrite Hsun.
    match goal with
    | |- exec st ?t = _ =>
        change t with
          ([glClear; glLoadIdentity; glTranslatef 0 0 (- Static.zoom self);
            glRotatef (Static.rot_x self) 1 0 0;
            glRotatef (Static.rot_y self) 0 1 0]
           ++ ([glPushMatrix; glTranslatef sx sy sz]
               ++ [glColor3f 1.0 0.75 0.2; gluQuadricDrawStyle GLU_LINE;
                   glLineWidth 1.5]
               ++ [gluSphere (Static.sun_radius_km cfg) 48 48; glPopMatrix])
           ++ ([glPushMatrix]
               ++ [glColor3f 0.9 0.3 0.3; gluQuadricDrawStyle GLU_LINE]
               ++ [gluSphere (Static.mars_radius_km cfg) 36 36; glPopMatrix])
           ++ ([glPushMatrix]
               ++ [glColor4f 0.4 0.6 1.0 (Static.atmosphere_alpha cfg);
                   gluQuadricDrawStyle GLU_FILL]
               ++ [gluSphere
                     (Static.mars_radius_km cfg * Static.atmosphere_scale cfg)
                     36 36;
                   glPopMatrix])
           ++ ([glColor3f 1.0 1.0 0.3;
                glPointSize (Static.spacecraft_point_size cfg);
                glBegin GL_POINTS]
               ++ map (fun '(x, y, z) => glVertex3f x y z) (Static.pos self)
               ++ [glEnd])
           ++ vectors)
    end.
    rewrite exec_app, (exec_camera st _ _ _ Hmode). fold v. fold st1.
    rewrite exec_app, exec_sphere_at by (reflexivity || skip_colour).
    rewrite exec_app, exec_sphere_here by (reflexivity || skip_colour).
    rewrite exec_app, exec_sphere_here by (reflexivity || skip_colour).
    rewrite !with_drawn_app.
    rewrite exec_app, exec_app.
    change (exec ?s [glColor3f 1.0 1.0 0.3;
                     glPointSize (Static.spacecraft_point_size cfg);
                     glBegin GL_POINTS])
      with (set_assembling s (Some (GL_POINTS, None))).
    rewrite exec_app, exec_point_vertices by reflexivity.
    change (exec ?s [glEnd]) with (set_assembling s None).
    rewrite Hexec. unfold with_drawn, set_assembling.
    cbn [mode modelview projection modelview_stack projection_stack
         assembling drawn st1].
    rewrite <- !app_assoc. reflexivity.
Qed.

Lemma motion_paintGL_ok (cfg : Motion.Config) (self : Motion.OrbitViewer) :
  (0 <= Motion.index self < Z.of_nat (length (Motion.xyz self)))%Z ->
  exists trace, Motion.paintGL cfg self = Ok trace.
Proof.
  intros Hi. unfold Motion.paintGL, Motion.draw_spacecraft.
  rewrite (getitem_in_range (Motion.xyz self) _ (0, 0, 0) Hi). cbn [bind].
  destruct (nth _ _ _) as [[x y] z]. cbn [bind]. eexists. reflexivity.
Qed.

(** C5.  The view transform of a frame is
    [T(0, 0, -zoom) . Rx(rot_x) . Ry(rot_y)]: applied to a point it rotates
    about the Y axis by [rot_y] degrees, then about the X axis by [rot_x]
    degrees, then translates by [(0, 0, -zoom)].  In both viewers [paintGL]
    builds this matrix on the identity with [glTranslatef] called first,
    [glRotatef] about X second and [glRotatef] about Y third; every vertex
    of the frame is transformed by it, every quadric is placed by it followed
    by the translation to the quadric's centre, and the frame leaves it as the
    modelview matrix, with the matrix stack as it found it. *)
Theorem view_transform_composition :
  (forall (rx ry z : Q) (p : vec4),
      mapply (view rx ry z) p
      = mapply (translation 0 0 (Q2R (- z)))
          (mapply (Rx (Q2R rx)) (mapply (Ry (Q2R ry)) p))) /\
  (forall (cfg : Motion.Config) (self : Motion.OrbitViewer) (st : state),
      mode st = GL_MODELVIEW ->
      (0 <= Motion.index self < Z.of_nat (length (Motion.xyz self)))%Z ->
      let v := view (Motion.rot_x self) (Motion.rot_y self) (Motion.zoom self) in
      exists trace items,
        Motion.paintGL cfg self = Ok trace /\
        firstn 5 trace
        = [glClear; glLoadIdentity; glTranslatef 0 0 (- Motion.zoom self);
           glRotatef (Motion.rot_x self) 1 0 0;
           glRotatef (Motion.rot_y self) 0 1 0] /\
        modelview (exec st (firstn 5 trace)) = v /\
        modelview (exec st trace) = v /\
        modelview_stack (exec st trace) = modelview_stack st /\
        drawn (exec st trace) = drawn st ++ items /\
        Forall (under_view v) items) /\
  (forall (cfg : Static.Config) (self : Static.OrbitViewer) (st : state),
      mode st = GL_MODELVIEW ->
      length (Static.vel self) = length (Static.pos self) ->
      (0 < Static.velocity_stride cfg)%Z ->
      let v := view (Static.rot_x self) (Static.rot_y self) (Static.zoom self) in
      exists trace items,
        Static.paintGL cfg self = Ok trace /\
        firstn 5 trace
        = [glClear; glLoadIdentity; glTranslatef 0 0 (- Static.zoom self);
           glRotatef (Static.rot_x self) 1 0 0;
           glRotatef (Static.rot_y self) 0 1 0] /\
        modelview (exec st (firstn 5 trace)) = v /\
        modelview (exec st trace) = v /\
        modelview_stack (exec st trace) = modelview_stack st /\
        drawn (exec st trace) = drawn st ++ items /\
        Forall (under_view v) items).
Proof.
  split; [| split].
  - intros rx ry z p. unfold view. rewrite !mapply_mmul. reflexivity.
  - intros cfg self st Hmode Hi v.
    destruct (motion_paintGL_ok cfg self Hi) as (trace & Htrace).
    destruct (motion_frame cfg self st trace Hmode Htrace)
      as (sx & sy & sz & x & y & z & Hsun & Hget & Hexec).
    fold v in Hexec.
    assert (Hfirst : firstn 5 trace
                     = [glClear; glLoadIdentity;
                        glTranslatef 0 0 (- Motion.zoom self);
                        glRotatef (Motion.rot_x self) 1 0 0;
                        glRotatef (Motion.rot_y self) 0 1 0]).
    { unfold Motion.paintGL in Htrace.
      destruct (Motion.draw_spacecraft cfg self); [| discriminate].
      cbn [bind] in Htrace. injection Htrace as <-. reflexivity. }
    exists trace. eexists.
    split; [exact Htrace |]. split; [exact Hfirst |].
    split; [rewrite Hfirst, (exec_camera st _ _ _ Hmode); reflexivity |].
    rewrite Hexec.
    split; [reflexivity |]. split; [reflexivity |]. split; [reflexivity |].
    repeat (apply Forall_cons;
            [first [apply under_view_sphere_at | apply under_view_sphere_here] |]).
    apply Forall_app. split; [apply under_view_strip |].
    repeat constructor. apply under_view_sphere_at.
  - intros cfg self st Hmode Hlen Hs v.
    destruct (static_frame cfg self st Hmode Hlen Hs)
      as (sx & sy & sz & trace & Hsun & Htrace & Hexec).
    fold v in Hexec.
    assert (Hfirst : firstn 5 trace
                     = [glClear; glLoadIdentity;
                        glTranslatef 0 0 (- Static.zoom self);
                        glRotatef (Static.rot_x self) 1 0 0;
                        glRotatef (Static.rot_y self) 0 1 0]).
    { unfold Static.paintGL in Htrace.
      destruct (Static.draw_velocity_vectors cfg self); [| discriminate].
      cbn [bind] in Htrace. injection Htrace as <-. reflexivity. }
    exists trace. eexists.
    split; [exact Htrace |]. split; [exact Hfirst |].
    split; [rewrite Hfirst, (exec_camera st _ _ _ Hmode); reflexivity |].
    rewrite Hexec.
    split; [reflexivity |]. split; [reflexivity |]. split; [reflexivity |].
    repeat (apply Forall_cons;
            [first [apply under_view_sphere_at | apply under_view_sphere_here] |]).
    apply Forall_app. split; [apply under_view_points |].
    apply under_view_velocity.
Qed.

Lemma view_transform_composition_witness :
  let self := Motion.init [(1, 0, 0); (0, 1, 0)] (1, 0, 0) in
  let st :=
    exec gl_initial
      [glViewport 0 0 1200 800;
       glMatrixMode GL_PROJECTION;
       glLoadIdentity;
       gluPerspective 45 (inject_Z 1200 / inject_Z 800) 1000 1e10;
       glMatrixMode GL_MODELVIEW] in
  exists trace,
    Motion.paintGL Motion.CONFIG self = Ok trace /\
    modelview (exec st trace) = view (-40) 30 35000.
Proof.
  intros self st.
  assert (Hi : (0 <= Motion.index self
                < Z.of_nat (length (Motion.xyz self)))%Z) by (cbn; lia).
  destruct (proj1 (proj2 view_transform_composition)
              Motion.CONFIG self st eq_refl Hi)
    as (trace & items & Htrace & _ & _ & Hview & _).
  exists trace. split; [exact Htrace | exact Hview].
Defined.

(** ** Further properties of the handlers *)

Lemma clamp_direction (z d : Q) :
  5000 <= z <= 5e10 ->
  (0 <= d -> Py.max 5000 (Py.min (z - d / 120 * 2000) 5e10) <= z) /\
  (d <= 0 -> z <= Py.max 5000 (Py.min (z - d / 120 * 2000) 5e10)).
Proof.
  intros [Hlo Hhi]. unfold Py.max, Py.min.
  split; intros Hd;
    destruct (Py.lt 5e10 (z - d / 120 * 2000)) eqn:E1;
    match goal with
    | |- context [Py.lt 5000 ?a] => destruct (Py.lt 5000 a) eqn:E2
    end;
    py_cmp; qlra.
Qed.

Lemma inject_Z_nonneg (d : Z) : (0 <= d)%Z -> 0 <= inject_Z d.
Proof. intros H. rewrite Zle_Qle in H. exact H. Qed.

Lemma inject_Z_nonpos (d : Z) : (d <= 0)%Z -> inject_Z d <= 0.
Proof. intros H. rewrite Zle_Qle in H. exact H. Qed.

(** X4.  Scrolling has a direction.  On a zoom that is within bounds, a wheel
    event with a positive delta never enlarges the zoom distance and one with
    a negative delta never reduces it, in both viewers; so a zoom on a bound
    stays there under further events in that direction. *)
Theorem wheel_direction :
  (forall (self : Motion.OrbitViewer) (delta : Z),
      5000 <= Motion.zoom self <= 5e10 ->
      exists self',
        Motion.wheelEvent Motion.CONFIG self delta = Ok self' /\
        ((0 <= delta)%Z -> Motion.zoom self' <= Motion.zoom self) /\
        ((delta <= 0)%Z -> Motion.zoom self <= Motion.zoom self') /\
        ((0 <= delta)%Z -> Motion.zoom self == 5000 ->
         Motion.zoom self' == 5000) /\
        ((delta <= 0)%Z -> Motion.zoom self == 5e10 ->
         Motion.zoom self' == 5e10)) /\
  (forall (self : Static.OrbitViewer) (delta : Z),
      5000 <= Static.zoom self <= 5e10 ->
      exists self',
        Static.wheelEvent Static.CONFIG self delta = Ok self' /\
        ((0 <= delta)%Z -> Static.zoom self' <= Static.zoom self) /\
        ((delta <= 0)%Z -> Static.zoom self <= Static.zoom self') /\
        ((0 <= delta)%Z -> Static.zoom self == 5000 ->
         Static.zoom self' == 5000) /\
        ((delta <= 0)%Z -> Static.zoom self == 5e10 ->
         Static.zoom self' == 5e10)).
Proof.
  split; intros self delta Hz.
  - destruct (motion_wheelEvent_bounds self delta) as (s & Hs & Hb).
    exists s. split; [exact Hs |].
    rewrite motion_wheelEvent_ok in Hs. injection Hs as <-.
    cbn [Motion.zoom Motion.set_zoom Motion.min_zoom Motion.max_zoom
         Motion.CONFIG] in *.
    destruct (clamp_direction (Motion.zoom self) (inject_Z delta) Hz)
      as [Hup Hdown].
    repeat split.
    + intros H. apply Hup, inject_Z_nonneg, H.
    + intros H. apply Hdown, inject_Z_nonpos, H.
    + intros H E. apply inject_Z_nonneg, Hup in H. destruct Hb. qlra.
    + intros H E. apply inject_Z_nonpos, Hdown in H. destruct Hb. qlra.
  - destruct (static_wheelEvent_bounds self delta) as (s & Hs & Hb).
    exists s. split; [exact Hs |].
    rewrite static_wheelEvent_ok in Hs. injection Hs as <-.
    cbn [Static.zoom Static.set_zoom Static.min_zoom Static.max_zoom
         Static.CONFIG] in *.
    destruct (clamp_direction (Static.zoom self) (inject_Z delta) Hz)
      as [Hup Hdown].
    repeat split.
    + intros H. apply Hup, inject_Z_nonneg, H.
    + intros H. apply Hdown, inject_Z_nonpos, H.
    + intros H E. apply inject_Z_nonneg, Hup in H. destruct Hb. qlra.
    + intros H E. apply inject_Z_nonpos, Hdown in H. destruct Hb. qlra.
Qed.

Lemma wheel_direction_witness :
  exists self',
    Motion.wheelEvent Motion.CONFIG (Motion.init [(1, 0, 0)] (1, 0, 0)) 240
    = Ok self' /\
    Motion.zoom self' <= 35000.
Proof.
  assert (Hz : 5000 <= Motion.zoom (Motion.init [(1, 0, 0)] (1, 0, 0)) <= 5e10)
    by (split; discriminate).
  destruct (proj1 wheel_direction (Motion.init [(1, 0, 0)] (1, 0, 0)) 240%Z Hz)
    as (s & Hs & Hup & _).
  exists s. split; [exact Hs |]. apply Hup. discriminate.
Defined.

(** X5.  Handlers that write different attributes commute: a wheel event and
    a pointer move, and a wheel event and a timer tick, give the same viewer
    or the same exception in either order; so do a pointer move and a timer
    tick when the trajectory is not empty (on an empty one both can fail,
    each order with the exception of its first handler); likewise a wheel
    event and a pointer move of the static viewer. *)
Theorem handlers_commute :
  (forall (cfg : Motion.Config) (self : Motion.OrbitViewer) (delta x y : Z),
      (s <- Motion.wheelEvent cfg self delta ;; Motion.mouseMoveEvent s x y)
      = (s <- Motion.mouseMoveEvent self x y ;; Motion.wheelEvent cfg s delta)) /\
  (forall (cfg : Motion.Config) (self : Motion.OrbitViewer) (delta : Z),
      (s <- Motion.wheelEvent cfg self delta ;; Motion.update_animation cfg s)
      = (s <- Motion.update_animation cfg self ;; Motion.wheelEvent cfg s delta)) /\
  (forall (cfg : Motion.Config) (self : Motion.OrbitViewer) (x y : Z),
      Motion.xyz self <> [] ->
      (s <- Motion.mouseMoveEvent self x y ;; Motion.update_animation cfg s)
      = (s <- Motion.update_animation cfg self ;; Motion.mouseMoveEvent s x y)) /\
  (forall (cfg : Static.Config) (self : Static.OrbitViewer) (delta x y : Z),
      (s <- Static.wheelEvent cfg self delta ;; Static.mouseMoveEvent s x y)
      = (s <- Static.mouseMoveEvent self x y ;; Static.wheelEvent cfg s delta)).
Proof.
  split; [| split; [| split]].
  - intros cfg self delta x y. rewrite motion_wheelEvent_ok. cbn [bind].
    unfold Motion.mouseMoveEvent. cbn [Motion.last_mouse Motion.set_zoom].
    destruct (Motion.last_mouse self) as [[lx ly] |]; reflexivity.
  - intros cfg self delta. rewrite motion_wheelEvent_ok. cbn [bind].
    unfold Motion.update_animation. cbn [Motion.index Motion.xyz Motion.set_zoom].
    destruct (Py.mod_ _ _); reflexivity.
  - intros cfg self x y Hne.
    rewrite (update_animation_ok cfg self Hne). cbn [bind].
    unfold Motion.mouseMoveEvent. cbn [Motion.last_mouse Motion.set_index].
    destruct (Motion.last_mouse self) as [[lx ly] |]; cbn [bind];
      [| reflexivity].
    rewrite update_animation_ok by exact Hne. reflexivity.
  - intros cfg self delta x y. rewrite static_wheelEvent_ok. cbn [bind].
    unfold Static.mouseMoveEvent. cbn [Static.last_mouse Static.set_zoom].
    destruct (Static.last_mouse self) as [[lx ly] |]; reflexivity.
Qed.

Lemma handlers_commute_witness :
  let self :=
    Motion.set_last_mouse (Motion.init [(1, 0, 0); (0, 1, 0)] (1, 0, 0))
      (100, 100)%Z in
  (s <- Motion.mouseMoveEvent self 110 130 ;;
   Motion.update_animation Motion.CONFIG s)
  = (s <- Motion.update_animation Motion.CONFIG self ;;
     Motion.mouseMoveEvent s 110 130).
Proof.
  intros self.
  apply (proj1 (proj2 (proj2 handlers_commute)) Motion.CONFIG self 110%Z 130%Z).
  discriminate.
Defined.

(** ** What holds in every state the viewers reach *)








(** ** Empty tables and odd strides *)

Lemma getitem_empty {A : Type} (i : Z) :
  Py.getitem (@nil A) i = Raise IndexError.
Proof.
  unfold Py.getitem. cbn [length Z.of_nat]. rewrite Z.add_0_r.
  replace (if Z.ltb i 0 then i else i) with i
    by (destruct (Z.ltb i 0); reflexivity).
  destruct (Z.ltb i 0); [reflexivity |].
  destruct (Z.to_nat i); reflexivity.
Qed.

Lemma strided_indices_empty (s : Z) : (0 < s)%Z -> strided_indices 0 s = [].
Proof.
  intros Hs. unfold strided_indices, strided_count.
  cbn [Z.of_nat]. rewrite Z.add_0_l, Z.div_small by lia. reflexivity.
Qed.

(** X8.  An empty table.  The animated viewer cannot run on an empty
    trajectory: every tick raises [ZeroDivisionError] (the index is reduced
    modulo the length 0) and every [paintGL] raises [IndexError] (the
    spacecraft marker reads [xyz[index]]).  The static viewer can: with empty
    position and velocity tables and a positive stride its frame is the sun,
    the planet and the atmosphere shell, and nothing else. *)
Theorem empty_table_behaviour :
  (forall (cfg : Motion.Config) (self : Motion.OrbitViewer),
      Motion.xyz self = [] ->
      Motion.update_animation cfg self = Raise ZeroDivisionError /\
      Motion.paintGL cfg self = Raise IndexError) /\
  (forall (cfg : Static.Config) (self : Static.OrbitViewer) (st : state),
      Static.pos self = [] ->
      Static.vel self = [] ->
      (0 < Static.velocity_stride cfg)%Z ->
      mode st = GL_MODELVIEW ->
      exists trace spheres,
        Static.paintGL cfg self = Ok trace /\
        drawn (exec st trace) = drawn st ++ spheres /\
        map (fun i => match i with
                      | Sphere _ radius slices stacks =>
                          Some (radius, slices, stacks)
                      | _ => None
                      end) spheres
        = [Some (Static.sun_radius_km cfg, 48%Z, 48%Z);
           Some (Static.mars_radius_km cfg, 36%Z, 36%Z);
           Some (Static.mars_radius_km cfg * Static.atmosphere_scale cfg,
                 36%Z, 36%Z)]).
Proof.
  split.
  - intros cfg self Hxyz. split.
    + unfold Motion.update_animation. rewrite Hxyz. reflexivity.
    + unfold Motion.paintGL, Motion.draw_spacecraft.
      rewrite Hxyz, getitem_empty. reflexivity.
  - intros cfg self st Hpos Hvel Hs Hmode.
    assert (Hlen : length (Static.vel self) = length (Static.pos self))
      by (rewrite Hpos, Hvel; reflexivity).
    destruct (static_frame cfg self st Hmode Hlen Hs)
      as (sx & sy & sz & trace & _ & Htrace & Hexec).
    exists trace. eexists. split; [exact Htrace |].
    rewrite Hexec, Hpos. cbn [length map]. rewrite strided_indices_empty by exact Hs.
    cbn [map app with_drawn drawn]. split; reflexivity.
Qed.

Lemma empty_table_behaviour_witness :
  Motion.update_animation Motion.CONFIG (Motion.init [] (1, 0, 0))
  = Raise ZeroDivisionError /\
  Motion.paintGL Motion.CONFIG (Motion.init [] (1, 0, 0)) = Raise IndexError.
Proof.
  apply (proj1 empty_table_behaviour Motion.CONFIG (Motion.init [] (1, 0, 0))).
  reflexivity.
Defined.

Lemma range_negative_step (n : nat) (s : Z) :
  (s < 0)%Z -> Py.range 0 (Z.of_nat n) s = Ok [].
Proof.
  intros Hs. unfold Py.range.
  destruct (Z.eqb_spec s 0); [lia |]. f_equal.
  destruct (Z.to_nat _) as [| fuel]; [reflexivity |].
  cbn [Py.range_from].
  destruct (Z.ltb_spec 0 s); [lia |].
  destruct (Z.ltb_spec (Z.of_nat n) 0); [lia | reflexivity].
Qed.

(** X9.  Odd strides.  With ["velocity_stride": 0] the static viewer cannot
    draw: [draw_velocity_vectors], and with it [paintGL], raises
    [ValueError] ([range] refuses a zero step) on every table.  With a
    negative stride nothing fails and no velocity segment is drawn: the
    method opens and closes an empty [GL_LINES] block. *)
Theorem velocity_stride_edges (cfg : Static.Config)
    (self : Static.OrbitViewer) :
  (Static.velocity_stride cfg = 0%Z ->
   Static.draw_velocity_vectors cfg self = Raise ValueError /\
   Static.paintGL cfg self = Raise ValueError) /\
  ((Static.velocity_stride cfg < 0)%Z ->
   Static.draw_velocity_vectors cfg self
   = Ok [glColor3f 0.3 1.0 0.3; glLineWidth 1.5; glBegin GL_LINES; glEnd] /\
   forall st : state,
     drawn (exec st [glColor3f 0.3 1.0 0.3; glLineWidth 1.5;
                     glBegin GL_LINES; glEnd])
     = drawn st).
Proof.
  split.
  - intros Hs.
    assert (H : Static.draw_velocity_vectors cfg self = Raise ValueError)
      by (unfold Static.draw_velocity_vectors, Py.range; rewrite Hs; reflexivity).
    split; [exact H |]. unfold Static.paintGL. rewrite H. reflexivity.
  - intros Hs. split.
    + unfold Static.draw_velocity_vectors.
      rewrite (range_negative_step _ _ Hs). reflexivity.
    + intros st. destruct st. reflexivity.
Qed.

Lemma velocity_stride_edges_witness :
  let cfg := Static.mkConfig 3390 1.07 0.12 4.0 3000 0 696000 1.0 5000 5e10 in
  let self := Static.init [(1, 0, 0)] [(0, 1, 0)] (1, 0, 0) in
  Static.draw_velocity_vectors cfg self = Raise ValueError /\
  Static.paintGL cfg self = Raise ValueError.
Proof.
  intros cfg self.
  apply (proj1 (velocity_stride_edges cfg self)). reflexivity.
Defined.

(** ** Matrix discipline of the drawing methods *)

Lemma same_matrices_refl (st : state) : same_matrices st st.
Proof. repeat split. Qed.

Lemma same_matrices_trans (a b c : state) :
  same_matrices a b -> same_matrices b c -> same_matrices a c.
Proof.
  intros (H1 & H2 & H3 & H4 & H5) (K1 & K2 & K3 & K4 & K5).
  repeat split; congruence.
Qed.

Lemma exec1_keeps_matrices (st : state) (c : gl_cmd) :
  matrix_call c = false -> same_matrices st (exec1 st c).
Proof.
  intros Hc. destruct c; try discriminate Hc; try apply same_matrices_refl;
    cbn [exec1]; try (repeat split; reflexivity).
  unfold vertex. destruct (assembling st) as [[[| |] [q |]] |];
    repeat split; reflexivity.
Qed.

Lemma exec_keeps_matrices (cs : list gl_cmd) :
  Forall (fun c => matrix_call c = false) cs ->
  forall st : state, same_matrices st (exec st cs).
Proof.
  induction 1 as [| c cs Hc _ IH]; intros st.
  - apply same_matrices_refl.
  - cbn [exec fold_left].
    apply (same_matrices_trans _ (exec1 st c));
      [apply exec1_keeps_matrices, Hc | apply IH].
Qed.

Lemma vertices_no_matrix_call (ps : list vec3) :
  Forall (fun c => matrix_call c = false)
    (map (fun '(x, y, z) => glVertex3f x y z) ps).
Proof.
  induction ps as [| [[x y] z] ps IH]; cbn [map]; constructor;
    [reflexivity | exact IH].
Qed.

Lemma velocity_lines_no_matrix_call (cfg : Static.Config)
    (self : Static.OrbitViewer) (indices : list Z) :
  forall lines,
    Static.velocity_lines cfg self indices = Ok lines ->
    Forall (fun c => matrix_call c = false) lines.
Proof.
  induction indices as [| i rest IH]; intros lines H.
  - cbn in H. injection H as <-. constructor.
  - cbn [Static.velocity_lines] in H.
    destruct (Py.getitem (Static.pos self) i) as [[[x y] z] |];
      cbn [bind] in H; [| discriminate].
    destruct (Py.getitem (Static.vel self) i) as [[[vx vy] vz] |];
      cbn [bind] in H; [| discriminate].
    destruct (Static.velocity_lines cfg self rest) as [more |];
      cbn [bind] in H; [| discriminate].
    injection H as <-. repeat constructor. apply IH. reflexivity.
Qed.

(** A block that saves the matrix, changes it, draws and restores it. *)
Lemma push_pop_block (st : state) (inner : list gl_cmd) (x y z : Q) :
  Forall (fun c => matrix_call c = false) inner ->
  same_matrices st (exec st ([glPushMatrix] ++ inner ++ [glPopMatrix])) /\
  same_matrices st
    (exec st ([glPushMatrix; glTranslatef x y z] ++ inner ++ [glPopMatrix])).
Proof.
  intros Hinner.
  split; rewrite !exec_app.
  - pose proof (exec_keeps_matrices inner Hinner (exec st [glPushMatrix]))
      as (H1 & H2 & H3 & H4 & H5).
    revert H1 H2 H3 H4 H5.
    generalize (exec (exec st [glPushMatrix]) inner). intros s.
    destruct st as [m mv pj ms ps a d], s as [m' mv' pj' ms' ps' a' d'].
    destruct m; cbn; intros <- <- <- <- <-; repeat split; reflexivity.
  - pose proof (exec_keeps_matrices inner Hinner
                  (exec st [glPushMatrix; glTranslatef x y z]))
      as (H1 & H2 & H3 & H4 & H5).
    revert H1 H2 H3 H4 H5.
    generalize (exec (exec st [glPushMatrix; glTranslatef x y z]) inner).
    intros s.
    destruct st as [m mv pj ms ps a d], s as [m' mv' pj' ms' ps' a' d'].
    destruct m; cbn; intros <- <- <- <- <-; repeat split; reflexivity.
Qed.

(** X10.  Every drawing method leaves the matrix state as it found it:
    whatever the pipeline state, after the method the matrix mode, the
    modelview and projection matrices and both matrix stacks are those from
    before, so the placement of one object never reaches the next.  The
    methods that place an object do it between [glPushMatrix] and
    [glPopMatrix]; the others issue no matrix call. *)
Theorem drawing_restores_matrices (st : state) :
  (forall (cfg : Motion.Config) (self : Motion.OrbitViewer),
      same_matrices st (exec st (Motion.draw_sun cfg self)) /\
      same_matrices st (exec st (Motion.draw_mars_wireframe cfg)) /\
      same_matrices st (exec st (Motion.draw_mars_atmosphere cfg)) /\
      same_matrices st (exec st (Motion.draw_trajectory self)) /\
      (forall trace,
          Motion.draw_spacecraft cfg self = Ok trace ->
          same_matrices st (exec st trace))) /\
  (forall (cfg : Static.Config) (self : Static.OrbitViewer),
      same_matrices st (exec st (Static.draw_sun cfg self)) /\
      same_matrices st (exec st (Static.draw_mars_wireframe cfg)) /\
      same_matrices st (exec st (Static.draw_mars_atmosphere cfg)) /\
      same_matrices st (exec st (Static.draw_spacecraft_points cfg self)) /\
      (forall trace,
          Static.draw_velocity_vectors cfg self = Ok trace ->
          same_matrices st (exec st trace))).
Proof.
  split; intros cfg self.
  - split; [| split; [| split; [| split]]].
    + unfold Motion.draw_sun. destruct (vscale _ _) as [[sx sy] sz].
      apply (push_pop_block st
               [glColor3f 1.0 0.75 0.2; gluQuadricDrawStyle GLU_LINE;
                glLineWidth 1.5; gluSphere (Motion.sun_radius_km cfg) 48 48]
               sx sy sz).
      repeat constructor.
    + apply (push_pop_block st
               [glColor3f 0.9 0.3 0.3; gluQuadricDrawStyle GLU_LINE;
                gluSphere (Motion.mars_radius_km cfg) 36 36] 0 0 0).
      repeat constructor.
    + apply (push_pop_block st
               [glColor4f 0.4 0.6 1.0 (Motion.atmosphere_alpha cfg);
                gluQuadricDrawStyle GLU_FILL;
                gluSphere
                  (Motion.mars_radius_km cfg * Motion.atmosphere_scale cfg)
                  36 36] 0 0 0).
      repeat constructor.
    + apply exec_keeps_matrices. unfold Motion.draw_trajectory.
      apply Forall_app. split; [repeat constructor |].
      apply Forall_app. split; [apply vertices_no_matrix_call |].
      repeat constructor.
    + intros trace H. unfold Motion.draw_spacecraft in H.
      destruct (Py.getitem _ _) as [[[x y] z] |]; cbn [bind] in H;
        [| discriminate].
      injection H as <-.
      apply (push_pop_block st
               [glColor3f 1.0 1.0 0.3; gluQuadricDrawStyle GLU_FILL;
                gluSphere (Motion.spacecraft_scale cfg) 16 16] x y z).
      repeat constructor.
  - split; [| split; [| split; [| split]]].
    + unfold Static.draw_sun. destruct (vscale _ _) as [[sx sy] sz].
      apply (push_pop_block st
               [glColor3f 1.0 0.75 0.2; gluQuadricDrawStyle GLU_LINE;
                glLineWidth 1.5; gluSphere (Static.sun_radius_km cfg) 48 48]
               sx sy sz).
      repeat constructor.
    + apply (push_pop_block st
               [glColor3f 0.9 0.3 0.3; gluQuadricDrawStyle GLU_LINE;
                gluSphere (Static.mars_radius_km cfg) 36 36] 0 0 0).
      repeat constructor.
    + apply (push_pop_block st
               [glColor4f 0.4 0.6 1.0 (Static.atmosphere_alpha cfg);
                gluQuadricDrawStyle GLU_FILL;
                gluSphere
                  (Static.mars_radius_km cfg * Static.atmosphere_scale cfg)
                  36 36] 0 0 0).
      repeat constructor.
    + apply exec_keeps_matrices. unfold Static.draw_spacecraft_points.
      apply Forall_app. split; [repeat constructor |].
      apply Forall_app. split; [apply vertices_no_matrix_call |].
      repeat constructor.
    + intros trace H. unfold Static.draw_velocity_vectors in H.
      destruct (Py.range _ _ _) as [indices |]; cbn [bind] in H;
        [| discriminate].
      destruct (Static.velocity_lines cfg self indices) as [lines |] eqn:E;
        cbn [bind] in H; [| discriminate].
      injection H as <-.
      apply exec_keeps_matrices.
      repeat (apply Forall_cons; [reflexivity |]).
      apply Forall_app.
      split; [apply (velocity_lines_no_matrix_call _ _ _ _ E) |].
      repeat constructor.
Qed.

Lemma drawing_restores_matrices_witness :
  let st :=
    mkState GL_MODELVIEW (view (-40) 30 35000) identity [identity] [] None [] in
  let self := Motion.init [(1, 0, 0); (0, 1, 0)] (1, 0, 0) in
  same_matrices st
    (exec st
       [glPushMatrix;
        glTranslatef 1 0 0;
        glColor3f 1.0 1.0 0.3;
        gluQuadricDrawStyle GLU_FILL;
        gluSphere (Motion.spacecraft_scale Motion.CONFIG) 16 16;
        glPopMatrix]).
Proof.
  intros st self.
  apply (proj2 (proj2 (proj2 (proj2
           (proj1 (drawing_restores_matrices st) Motion.CONFIG self))))).
  reflexivity.
Defined.

(** ** Resizing and the pipeline *)

Lemma motion_resizeGL_ok (w h : Z) :
  Motion.resizeGL w h =
  Ok [glViewport 0 0 w h;
      glMatrixMode GL_PROJECTION;
      glLoadIdentity;
      gluPerspective 45 (if Z.eqb h 0 then 1 else inject_Z w / inject_Z h)
        1000 1e10;
      glMatrixMode GL_MODELVIEW].
Proof.
  unfold Motion.resizeGL, Py.truth.
  destruct (Z.eqb_spec h 0) as [-> | Hh]; cbn [negb bind]; [reflexivity |].
  rewrite (truediv_nonzero w h Hh). reflexivity.
Qed.

Lemma static_resizeGL_ok (w h : Z) :
  Static.resizeGL w h =
  Ok [glViewport 0 0 w h;
      glMatrixMode GL_PROJECTION;
      glLoadIdentity;
      gluPerspective 45 (if Z.eqb h 0 then 1 else inject_Z w / inject_Z h)
        1000 1e10;
      glMatrixMode GL_MODELVIEW].
Proof.
  unfold Static.resizeGL, Py.truth.
  destruct (Z.eqb_spec h 0) as [-> | Hh]; cbn [negb bind]; [reflexivity |].
  rewrite (truediv_nonzero w h Hh). reflexivity.
Qed.

Lemma exec_resize (st : state) (w h : Z) (aspect : Q) :
  exec st [glViewport 0 0 w h;
           glMatrixMode GL_PROJECTION;
           glLoadIdentity;
           gluPerspective 45 aspect 1000 1e10;
           glMatrixMode GL_MODELVIEW]
  = mkState GL_MODELVIEW (modelview st)
      (perspective (Q2R 45) (Q2R aspect) (Q2R 1000) (Q2R 1e10))
      (modelview_stack st) (projection_stack st) (assembling st) (drawn st).
Proof.
  destruct st as [m mv pj ms ps a d].
  cbn [exec fold_left exec1 set_current current mode modelview projection
       modelview_stack projection_stack assembling drawn].
  rewrite mmul_identity_l. reflexivity.
Qed.

(** X11.  A resize replaces the projection, it does not accumulate.  In both
    viewers, whatever the pipeline state and matrix mode before, after
    [resizeGL(w, h)] the projection matrix is the perspective matrix of
    field of view 45, aspect [w / h] (1 when [h = 0]), near 1000 and far
    1e10, the modelview matrix and both stacks are untouched, nothing is
    drawn, and modelview mode is selected, as [paintGL] needs it.  Two
    resizes in a row leave what the second alone leaves. *)
Theorem resize_replaces_projection (w h : Z) (st : state) :
  exists trace,
    Motion.resizeGL w h = Ok trace /\
    Static.resizeGL w h = Ok trace /\
    exec st trace
    = mkState GL_MODELVIEW (modelview st)
        (perspective (Q2R 45)
           (Q2R (if Z.eqb h 0 then 1 else inject_Z w / inject_Z h))
           (Q2R 1000) (Q2R 1e10))
        (modelview_stack st) (projection_stack st) (assembling st) (drawn st) /\
    forall (w0 h0 : Z),
    exists before,
      Motion.resizeGL w0 h0 = Ok before /\
      Static.resizeGL w0 h0 = Ok before /\
      exec st (before ++ trace) = exec st trace.
Proof.
  eexists. split; [apply motion_resizeGL_ok |].
  split; [apply static_resizeGL_ok |].
  split; [apply exec_resize |].
  intros w0 h0. eexists. split; [apply motion_resizeGL_ok |].
  split; [apply static_resizeGL_ok |].
  rewrite exec_app, !exec_resize. reflexivity.
Qed.

(** ** The items of a frame *)

Lemma strip_from_length (m : mat) (ps : list vec3) :
  forall prev, length (strip_from m prev ps) = length ps.
Proof.
  induction ps as [| p ps IH]; intros prev; cbn [strip_from length];
    [reflexivity | rewrite IH; reflexivity].
Qed.

Lemma strip_from_nth (m : mat) (ps : list vec3) :
  forall (prev : vec3) (k : nat) (d : item) (e : vec3),
    (k < length ps)%nat ->
    nth k (strip_from m prev ps) d
    = Segment (m, nth k (prev :: ps) e) (m, nth k ps e).
Proof.
  induction ps as [| p ps IH]; intros prev k d e Hk; [cbn in Hk; lia |].
  destruct k as [| k]; [reflexivity |].
  cbn [strip_from nth]. cbn [length] in Hk.
  rewrite (IH p k d e) by lia. reflexivity.
Qed.

(** X12.  The polyline of the trajectory.  Under a modelview matrix [m],
    [draw_trajectory] draws [len(xyz) - 1] segments and nothing else, the
    [k]-th from sample [k] to sample [k + 1], both ends transformed by [m];
    on an empty trajectory, or one of a single sample, it draws nothing. *)
Theorem trajectory_polyline (self : Motion.OrbitViewer) (st : state) :
  let m := modelview st in
  let items := line_strip m (Motion.xyz self) in
  exec st (Motion.draw_trajectory self) = with_drawn st None items /\
  length items = (length (Motion.xyz self) - 1)%nat /\
  forall (k : nat) (d : item) (e : vec3),
    (k + 1 < length (Motion.xyz self))%nat ->
    nth k items d
    = Segment (m, nth k (Motion.xyz self) e)
              (m, nth (k + 1) (Motion.xyz self) e).
Proof.
  intros m items. split; [| split].
  - unfold Motion.draw_trajectory.
    apply (exec_line_strip st (glColor3f 0.3 0.8 1.0)). intros s. reflexivity.
  - unfold items, line_strip. destruct (Motion.xyz self) as [| p ps];
      [reflexivity |].
    rewrite strip_from_length. cbn [length]. lia.
  - intros k d e Hk. unfold items, line_strip.
    destruct (Motion.xyz self) as [| p ps]; [cbn in Hk; lia |].
    cbn [length] in Hk.
    rewrite (strip_from_nth m ps p k d e) by lia.
    replace (k + 1)%nat with (S k) by lia. reflexivity.
Qed.

Lemma trajectory_polyline_witness :
  let self := Motion.init [(1, 0, 0); (0, 1, 0); (0, 0, 1)] (1, 0, 0) in
  nth 1 (line_strip (modelview gl_initial) (Motion.xyz self))
    (Point (identity, (0, 0, 0)))
  = Segment (modelview gl_initial, nth 1 (Motion.xyz self) (0, 0, 0))
            (modelview gl_initial, nth (1 + 1) (Motion.xyz self) (0, 0, 0)).
Proof.
  intros self.
  apply (proj2 (proj2 (trajectory_polyline self gl_initial))).
  cbn. lia.
Defined.

(** X13.  The frame of the animated viewer.  In modelview mode, with an
    index inside the trajectory, [paintGL] draws, in this order and nothing
    else: the sun, a 48 x 48 sphere of radius [sun_radius_km] centred at
    [-mars_sun * sun_distance_scale]; the planet, a 36 x 36 sphere of radius
    [mars_radius_km] at the origin; the atmosphere shell, a 36 x 36 sphere
    of radius [mars_radius_km * atmosphere_scale] at the origin; the polyline
    through all samples; the marker, a 16 x 16 sphere of radius
    [spacecraft_scale] centred at [xyz[index]]; all under the view of the
    current camera, whatever the modelview matrix was before. *)
Theorem motion_frame_contents (cfg : Motion.Config)
    (self : Motion.OrbitViewer) (st : state) :
  mode st = GL_MODELVIEW ->
  (0 <= Motion.index self < Z.of_nat (length (Motion.xyz self)))%Z ->
  let v := view (Motion.rot_x self) (Motion.rot_y self) (Motion.zoom self) in
  let '(sx, sy, sz) :=
    vscale (vneg (Motion.mars_sun self)) (Motion.sun_distance_scale cfg) in
  let '(x, y, z) :=
    nth (Z.to_nat (Motion.index self)) (Motion.xyz self) (0, 0, 0) in
  exists trace,
    Motion.paintGL cfg self = Ok trace /\
    drawn (exec st trace)
    = drawn st
      ++ [Sphere (mmul v (translation (Q2R sx) (Q2R sy) (Q2R sz)))
            (Motion.sun_radius_km cfg) 48 48;
          Sphere v (Motion.mars_radius_km cfg) 36 36;
          Sphere v (Motion.mars_radius_km cfg * Motion.atmosphere_scale cfg)
            36 36]
      ++ line_strip v (Motion.xyz self)
      ++ [Sphere (mmul v (translation (Q2R x) (Q2R y) (Q2R z)))
            (Motion.spacecraft_scale cfg) 16 16].
Proof.
  intros Hmode Hi v.
  destruct (motion_paintGL_ok cfg self Hi) as (trace & Htrace).
  destruct (motion_frame cfg self st trace Hmode Htrace)
    as (sx & sy & sz & x & y & z & Hsun & Hget & Hexec).
  rewrite Hsun.
  rewrite (getitem_in_range (Motion.xyz self) _ (0, 0, 0) Hi) in Hget.
  injection Hget as Hget. rewrite Hget.
  exists trace. split; [exact Htrace |].
  rewrite Hexec. reflexivity.
Qed.

Lemma motion_frame_contents_witness :
  exists trace,
    Motion.paintGL Motion.CONFIG (Motion.init [(1, 0, 0); (0, 1, 0)] (2, 0, 0))
    = Ok trace /\
    drawn (exec gl_initial trace)
    = [Sphere (mmul (view (-40) 30 35000)
                 (translation (Q2R (- (2) * 1.0)) (Q2R (- 0 * 1.0))
                    (Q2R (- 0 * 1.0))))
         696000 48 48;
       Sphere (view (-40) 30 35000) 3390 36 36;
       Sphere (view (-40) 30 35000) (3390 * 1.07) 36 36;
       Segment (view (-40) 30 35000, (1, 0, 0))
               (view (-40) 30 35000, (0, 1, 0));
       Sphere (mmul (view (-40) 30 35000)
                 (translation (Q2R 1) (Q2R 0) (Q2R 0)))
         150 16 16].
Proof.
  pose (self := Motion.init [(1, 0, 0); (0, 1, 0)] (2, 0, 0)).
  assert (Hi : (0 <= Motion.index self
                < Z.of_nat (length (Motion.xyz self)))%Z) by (cbn; lia).
  exact (motion_frame_contents Motion.CONFIG self gl_initial eq_refl Hi).
Defined.

(** X14.  The frame of the static viewer.  In modelview mode, with tables of
    the same length and a positive stride, [paintGL] draws, in this order and
    nothing else: the sun, the planet and the atmosphere shell as in the
    animated viewer; one point per sample, in table order, at the sample's
    position; the velocity segments of the samples [0, stride, ...]; all
    under the view of the current camera. *)
Theorem static_frame_contents (cfg : Static.Config)
    (self : Static.OrbitViewer) (st : state) :
  mode st = GL_MODELVIEW ->
  length (Static.vel self) = length (Static.pos self) ->
  (0 < Static.velocity_stride cfg)%Z ->
  let v := view (Static.rot_x self) (Static.rot_y self) (Static.zoom self) in
  let '(sx, sy, sz) :=
    vscale (vneg (Static.mars_sun self)) (Static.sun_distance_scale cfg) in
  exists trace,
    Static.paintGL cfg self = Ok trace /\
    drawn (exec st trace)
    = drawn st
      ++ [Sphere (mmul v (translation (Q2R sx) (Q2R sy) (Q2R sz)))
            (Static.sun_radius_km cfg) 48 48;
          Sphere v (Static.mars_radius_km cfg) 36 36;
          Sphere v (Static.mars_radius_km cfg * Static.atmosphere_scale cfg)
            36 36]
      ++ map (fun p => Point (v, p)) (Static.pos self)
      ++ map (velocity_segment cfg self v)
           (strided_indices (length (Static.pos self))
              (Static.velocity_stride cfg)).
Proof.
  intros Hmode Hlen Hs v.
  destruct (static_frame cfg self st Hmode Hlen Hs)
    as (sx & sy & sz & trace & Hsun & Htrace & Hexec).
  rewrite Hsun. exists trace. split; [exact Htrace |].
  rewrite Hexec. reflexivity.
Qed.

Lemma static_frame_contents_witness :
  exists trace,
    Static.paintGL Static.CONFIG
      (Static.init [(1, 0, 0); (0, 1, 0)] [(0, 0, 1); (1, 1, 0)] (2, 0, 0))
    = Ok trace /\
    length (drawn (exec gl_initial trace)) = 6%nat.
Proof.
  destruct (static_frame_contents Static.CONFIG
              (Static.init [(1, 0, 0); (0, 1, 0)] [(0, 0, 1); (1, 1, 0)]
                 (2, 0, 0))
              gl_initial eq_refl eq_refl eq_refl)
    as (trace & Htrace & Hdrawn).
  exists trace. split; [exact Htrace |].
  rewrite Hdrawn. reflexivity.
Defined.

(** ** Loading *)

Lemma rows_length (a b c : list Q) (n : nat) :
  length a = n -> length b = n -> length c = n ->
  length (Table.rows a b c) = n.
Proof.
  revert b c n. induction a as [| x a IH]; intros b c n Ha Hb Hc.
  - cbn in *. subst n. reflexivity.
  - destruct b as [| y b]; [cbn in *; congruence |].
    destruct c as [| z c]; [cbn in *; congruence |].
    cbn [Table.rows length] in *. destruct n as [| n]; [discriminate |].
    f_equal. apply IH; congruence.
Qed.

Lemma column_length (df : Table.DataFrame) (n : nat) (name : String.string)
    (cells : list Q) :
  Table.rectangular df n ->
  Table.column df name = Some cells ->
  length cells = n.
Proof.
  intros Hrect. induction Hrect as [| [label col] df Hcol _ IH]; cbn.
  - discriminate.
  - destruct (String.eqb label name); [| exact IH].
    intros H. injection H as <-. exact Hcol.
Qed.

Lemma select_loaded (df : Table.DataFrame) (a b c : String.string)
    (rs : list vec3) :
  Table.select df a b c = Table.Loaded rs ->
  exists ca cb cc,
    Table.column df a = Some ca /\
    Table.column df b = Some cb /\
    Table.column df c = Some cc /\
    rs = Table.rows ca cb cc.
Proof.
  unfold Table.select.
  destruct (Table.column df a) as [ca |]; [| discriminate].
  destruct (Table.column df b) as [cb |]; [| discriminate].
  destruct (Table.column df c) as [cc |]; [| discriminate].
  intros H. injection H as <-. exists ca, cb, cc. auto.
Qed.

Lemma select_length (df : Table.DataFrame) (n : nat) (a b c : String.string)
    (rs : list vec3) :
  Table.rectangular df n ->
  Table.select df a b c = Table.Loaded rs ->
  length rs = n.
Proof.
  intros Hrect H.
  destruct (select_loaded df a b c rs H) as (ca & cb & cc & Ha & Hb & Hc & ->).
  apply rows_length; eapply column_length; eassumption.
Qed.

Lemma select_present (df : Table.DataFrame) (a b c : String.string) :
  Table.has_column df a = true ->
  Table.has_column df b = true ->
  Table.has_column df c = true ->
  exists rs, Table.select df a b c = Table.Loaded rs.
Proof.
  unfold Table.has_column, Table.select.
  destruct (Table.column df a); [| discriminate].
  destruct (Table.column df b); [| discriminate].
  destruct (Table.column df c); [| discriminate].
  intros _ _ _. eexists. reflexivity.
Qed.

Lemma select_missing (df : Table.DataFrame) (a b c : String.string) :
  Table.has_column df a && Table.has_column df b && Table.has_column df c
  = false ->
  Table.select df a b c
  = Table.Failed
      (Table.KeyError
         (filter (fun l => negb (Table.has_column df l)) [a; b; c])) /\
  filter (fun l => negb (Table.has_column df l)) [a; b; c] <> [].
Proof.
  unfold Table.select, Table.has_column. cbn [filter].
  destruct (Table.column df a); destruct (Table.column df b);
    destruct (Table.column df c); cbn; intros H;
    first [discriminate H | split; [reflexivity | discriminate]].
Qed.

(** X15.  What [load_geometry_data] returns.  On a table whose columns all
    have [n] cells, a successful load of the static viewer returns position
    and velocity tables of [n] rows each, and [n] is at least 1; one of the
    animated viewer returns a trajectory of [n >= 1] rows.  So the loaded
    velocity table is as long as the position table, and a loaded trajectory
    is never empty. *)
Theorem load_geometry_data_shape (df : Table.DataFrame) (n : nat) :
  Table.rectangular df n ->
  (forall pos vel mars_sun,
      Table.static_load_geometry_data df = Table.Loaded (pos, vel, mars_sun) ->
      length pos = n /\ length vel = n /\ (1 <= n)%nat) /\
  (forall xyz mars_sun,
      Table.motion_load_geometry_data df = Table.Loaded (xyz, mars_sun) ->
      length xyz = n /\ (1 <= n)%nat /\ xyz <> []).
Proof.
  intros Hrect. split.
  - intros pos vel mars_sun H. unfold Table.static_load_geometry_data in H.
    destruct (Table.select df _ _ _) as [pos' |] eqn:Hpos in H;
      cbn [Table.and_then] in H; [| discriminate].
    destruct (Table.select df _ _ _) as [vel' |] eqn:Hvel in H;
      cbn [Table.and_then] in H; [| discriminate].
    unfold Table.select_first in H.
    destruct (Table.select df _ _ _) as [sun |] eqn:Hsun in H;
      cbn [Table.and_then] in H; [| discriminate].
    destruct sun as [| r sun]; [discriminate |].
    injection H as -> -> _.
    apply (select_length df n) in Hpos, Hvel, Hsun; try exact Hrect.
    cbn [length] in Hsun. repeat split; [exact Hpos | exact Hvel | lia].
  - intros xyz mars_sun H. unfold Table.motion_load_geometry_data in H.
    destruct (Table.select df _ _ _) as [xyz' |] eqn:Hxyz in H;
      cbn [Table.and_then] in H; [| discriminate].
    unfold Table.select_first in H.
    destruct (Table.select df _ _ _) as [sun |] eqn:Hsun in H;
      cbn [Table.and_then] in H; [| discriminate].
    destruct sun as [| r sun]; [discriminate |].
    injection H as -> _.
    apply (select_length df n) in Hxyz, Hsun; try exact Hrect.
    cbn [length] in Hsun.
    split; [exact Hxyz |]. split; [lia |].
    intros E. rewrite E in Hxyz. cbn in Hxyz. lia.
Qed.

Lemma load_geometry_data_shape_witness :
  let rows := [(1, 1, 1); (2, 2, 2)] in
  length rows = 2%nat /\ length rows = 2%nat /\ (1 <= 2)%nat.
Proof.
  intros rows.
  assert (Hrect : Table.rectangular
                    (map (fun l => (l, [1; 2])) Table.static_labels) 2)
    by (repeat constructor).
  apply (proj1 (load_geometry_data_shape _ 2 Hrect) rows rows (1, 1, 1)).
  reflexivity.
Defined.

Lemma select_cases (df : Table.DataFrame) (a b c : String.string) :
  (exists rs,
      Table.select df a b c = Table.Loaded rs /\
      forallb (Table.has_column df) [a; b; c] = true) \/
  (exists missing,
      Table.select df a b c = Table.Failed (Table.KeyError missing) /\
      missing <> [] /\
      Forall (fun l => In l [a; b; c] /\ Table.has_column df l = false) missing /\
      forallb (Table.has_column df) [a; b; c] = false).
Proof.
  destruct (Table.has_column df a && Table.has_column df b
            && Table.has_column df c) eqn:E.
  - left. apply andb_true_iff in E. destruct E as [E Hc].
    apply andb_true_iff in E. destruct E as [Ha Hb].
    destruct (select_present df a b c Ha Hb Hc) as (rs & Hrs).
    exists rs. split; [exact Hrs |]. cbn [forallb]. rewrite Ha, Hb, Hc.
    reflexivity.
  - right. destruct (select_missing df a b c E) as (Hsel & Hne).
    eexists. split; [exact Hsel |]. split; [exact Hne |]. split.
    + apply Forall_forall. intros l Hl. apply filter_In in Hl.
      destruct Hl as [Hin Hl]. split; [exact Hin |].
      apply negb_true_iff. exact Hl.
    + cbn [forallb]. rewrite andb_true_r, andb_assoc. exact E.
Qed.

Lemma first_row_cases (df : Table.DataFrame) (n : nat)
    (a b c : String.string) (rs : list vec3) :
  Table.rectangular df n ->
  Table.select df a b c = Table.Loaded rs ->
  ((1 <= n)%nat /\ exists r, Table.select_first df a b c = Table.Loaded r) \/
  (n = O /\ Table.select_first df a b c = Table.Failed Table.IlocIndexError).
Proof.
  intros Hrect Hsel. pose proof (select_length df n a b c rs Hrect Hsel) as Hn.
  unfold Table.select_first. rewrite Hsel. cbn [Table.and_then].
  destruct rs as [| r rs]; cbn [length] in Hn.
  - right. split; [symmetry; exact Hn | reflexivity].
  - left. split; [lia | exists r; reflexivity].
Qed.

(** Three selections in a row, the last one reduced to its first row: the
    shape of the static viewer's [load_geometry_data]. *)
Lemma three_selections (df : Table.DataFrame) (n : nat)
    (a1 b1 c1 a2 b2 c2 a3 b3 c3 : String.string) :
  Table.rectangular df n ->
  let load :=
    Table.and_then (Table.select df a1 b1 c1) (fun pos =>
    Table.and_then (Table.select df a2 b2 c2) (fun vel =>
    Table.and_then (Table.select_first df a3 b3 c3) (fun mars_sun =>
    Table.Loaded (pos, vel, mars_sun)))) in
  let present :=
    forallb (Table.has_column df) [a1; b1; c1; a2; b2; c2; a3; b3; c3] in
  ((exists r, load = Table.Loaded r) <-> present = true /\ (1 <= n)%nat) /\
  (present = false ->
   exists missing,
     load = Table.Failed (Table.KeyError missing) /\
     missing <> [] /\
     Forall (fun l => In l [a1; b1; c1; a2; b2; c2; a3; b3; c3] /\
                      Table.has_column df l = false) missing) /\
  (present = true -> n = O -> load = Table.Failed Table.IlocIndexError).
Proof.
  intros Hrect load present. unfold load, present. clear load present.
  destruct (select_cases df a1 b1 c1)
    as [(pos & Hpos & P1) | (m & Hm & Hne & Hall & P1)];
    [| rewrite Hm; cbn [Table.and_then]];
    [destruct (select_cases df a2 b2 c2)
       as [(vel & Hvel & P2) | (m & Hm & Hne & Hall & P2)];
     [| rewrite Hpos, Hm; cbn [Table.and_then]];
     [destruct (select_cases df a3 b3 c3)
        as [(sun & Hsun & P3) | (m & Hm & Hne & Hall & P3)];
      [| unfold Table.select_first; rewrite Hpos, Hvel, Hm;
         cbn [Table.and_then]] | ] | ].
  - assert (Hp : forallb (Table.has_column df)
                   [a1; b1; c1; a2; b2; c2; a3; b3; c3] = true).
    { change [a1; b1; c1; a2; b2; c2; a3; b3; c3]
        with ([a1; b1; c1] ++ [a2; b2; c2] ++ [a3; b3; c3]).
      rewrite !forallb_app, P1, P2, P3. reflexivity. }
    rewrite Hp, Hpos, Hvel. cbn [Table.and_then].
    destruct (first_row_cases df n _ _ _ sun Hrect Hsun)
      as [(Hn & r & Hr) | (Hn & Hr)]; rewrite Hr; cbn [Table.and_then].
    + split; [| split].
      * split; [intros _; split; [reflexivity | exact Hn] |].
        intros _. eexists. reflexivity.
      * discriminate.
      * intros _ E. lia.
    + split; [| split].
      * split; [intros [r Hr']; discriminate | intros [_ H]; lia].
      * discriminate.
      * intros _ _. reflexivity.
  - assert (Hp : forallb (Table.has_column df)
                   [a1; b1; c1; a2; b2; c2; a3; b3; c3] = false).
    { change [a1; b1; c1; a2; b2; c2; a3; b3; c3]
        with ([a1; b1; c1] ++ [a2; b2; c2] ++ [a3; b3; c3]).
      rewrite !forallb_app, P3, !andb_false_r. reflexivity. }
    rewrite Hp. split; [| split].
    + split; [intros [r Hr]; discriminate | intros [H _]; discriminate].
    + intros _. exists m. split; [reflexivity |]. split; [exact Hne |].
      eapply Forall_impl; [| exact Hall].
      cbn. intros l [Hin Hl]. split; [| exact Hl]. tauto.
    + discriminate.
  - assert (Hp : forallb (Table.has_column df)
                   [a1; b1; c1; a2; b2; c2; a3; b3; c3] = false).
    { change [a1; b1; c1; a2; b2; c2; a3; b3; c3]
        with ([a1; b1; c1] ++ [a2; b2; c2] ++ [a3; b3; c3]).
      rewrite !forallb_app, P2, !andb_false_r. reflexivity. }
    rewrite Hp. split; [| split].
    + split; [intros [r Hr]; discriminate | intros [H _]; discriminate].
    + intros _. exists m. split; [reflexivity |]. split; [exact Hne |].
      eapply Forall_impl; [| exact Hall].
      cbn. intros l [Hin Hl]. split; [| exact Hl]. tauto.
    + discriminate.
  - assert (Hp : forallb (Table.has_column df)
                   [a1; b1; c1; a2; b2; c2; a3; b3; c3] = false).
    { change [a1; b1; c1; a2; b2; c2; a3; b3; c3]
        with ([a1; b1; c1] ++ [a2; b2; c2] ++ [a3; b3; c3]).
      rewrite !forallb_app, P1. reflexivity. }
    rewrite Hp. split; [| split].
    + split; [intros [r Hr]; discriminate | intros [H _]; discriminate].
    + intros _. exists m. split; [reflexivity |]. split; [exact Hne |].
      eapply Forall_impl; [| exact Hall].
      cbn. intros l [Hin Hl]. split; [| exact Hl]. tauto.
    + discriminate.
Qed.

(** X16.  How [load_geometry_data] fails.  On a table whose columns all have
    [n] cells, the load of the static viewer succeeds exactly when the nine
    labels it asks for are columns of the table and the table has a row.
    When a label is missing it raises [KeyError], naming labels that are
    asked for and are not columns, also on a table without rows; when all
    labels are there and the table has no row it raises [IndexError], from
    [.iloc[0]]. *)
Theorem static_load_outcomes (df : Table.DataFrame) (n : nat) :
  Table.rectangular df n ->
  let present := forallb (Table.has_column df) Table.static_labels in
  ((exists r, Table.static_load_geometry_data df = Table.Loaded r) <->
   present = true /\ (1 <= n)%nat) /\
  (present = false ->
   exists missing,
     Table.static_load_geometry_data df
     = Table.Failed (Table.KeyError missing) /\
     missing <> [] /\
     Forall (fun l => In l Table.static_labels /\
                      Table.has_column df l = false) missing) /\
  (present = true -> n = O ->
   Table.static_load_geometry_data df = Table.Failed Table.IlocIndexError).
Proof.
  intros Hrect. apply (three_selections df n); exact Hrect.
Qed.

Lemma static_load_outcomes_witness :
  Table.static_load_geometry_data
    (map (fun l => (l, [])) Table.static_labels)
  = Table.Failed Table.IlocIndexError.
Proof.
  assert (Hrect : Table.rectangular
                    (map (fun l => (l, [])) Table.static_labels) 0)
    by (repeat constructor).
  apply (proj2 (proj2 (static_load_outcomes _ 0 Hrect))); reflexivity.
Defined.

(** Two selections in a row, the last one reduced to its first row: the
    shape of the animated viewer's [load_geometry_data]. *)
Lemma two_selections (df : Table.DataFrame) (n : nat)
    (a1 b1 c1 a2 b2 c2 : String.string) :
  Table.rectangular df n ->
  let load :=
    Table.and_then (Table.select df a1 b1 c1) (fun xyz =>
    Table.and_then (Table.select_first df a2 b2 c2) (fun mars_sun =>
    Table.Loaded (xyz, mars_sun))) in
  let present := forallb (Table.has_column df) [a1; b1; c1; a2; b2; c2] in
  ((exists r, load = Table.Loaded r) <-> present = true /\ (1 <= n)%nat) /\
  (present = false ->
   exists missing,
     load = Table.Failed (Table.KeyError missing) /\
     missing <> [] /\
     Forall (fun l => In l [a1; b1; c1; a2; b2; c2] /\
                      Table.has_column df l = false) missing) /\
  (present = true -> n = O -> load = Table.Failed Table.IlocIndexError).
Proof.
  intros Hrect load present. unfold load, present. clear load present.
  destruct (select_cases df a1 b1 c1)
    as [(xyz & Hxyz & P1) | (m & Hm & Hne & Hall & P1)];
    [| rewrite Hm; cbn [Table.and_then]];
    [destruct (select_cases df a2 b2 c2)
       as [(sun & Hsun & P2) | (m & Hm & Hne & Hall & P2)];
     [| unfold Table.select_first; rewrite Hxyz, Hm; cbn [Table.and_then]] | ].
  - assert (Hp : forallb (Table.has_column df) [a1; b1; c1; a2; b2; c2]
                 = true).
    { change [a1; b1; c1; a2; b2; c2] with ([a1; b1; c1] ++ [a2; b2; c2]).
      rewrite forallb_app, P1, P2. reflexivity. }
    rewrite Hp, Hxyz. cbn [Table.and_then].
    destruct (first_row_cases df n _ _ _ sun Hrect Hsun)
      as [(Hn & r & Hr) | (Hn & Hr)]; rewrite Hr; cbn [Table.and_then].
    + split; [| split].
      * split; [intros _; split; [reflexivity | exact Hn] |].
        intros _. eexists. reflexivity.
      * discriminate.
      * intros _ E. lia.
    + split; [| split].
      * split; [intros [r Hr']; discriminate | intros [_ H]; lia].
      * discriminate.
      * intros _ _. reflexivity.
  - assert (Hp : forallb (Table.has_column df) [a1; b1; c1; a2; b2; c2]
                 = false).
    { change [a1; b1; c1; a2; b2; c2] with ([a1; b1; c1] ++ [a2; b2; c2]).
      rewrite forallb_app, P2, andb_false_r. reflexivity. }
    rewrite Hp. split; [| split].
    + split; [intros [r Hr]; discriminate | intros [H _]; discriminate].
    + intros _. exists m. split; [reflexivity |]. split; [exact Hne |].
      eapply Forall_impl; [| exact Hall].
      cbn. intros l [Hin Hl]. split; [| exact Hl]. tauto.
    + discriminate.
  - assert (Hp : forallb (Table.has_column df) [a1; b1; c1; a2; b2; c2]
                 = false).
    { change [a1; b1; c1; a2; b2; c2] with ([a1; b1; c1] ++ [a2; b2; c2]).
      rewrite forallb_app, P1. reflexivity. }
    rewrite Hp. split; [| split].
    + split; [intros [r Hr]; discriminate | intros [H _]; discriminate].
    + intros _. exists m. split; [reflexivity |]. split; [exact Hne |].
      eapply Forall_impl; [| exact Hall].
      cbn. intros l [Hin Hl]. split; [| exact Hl]. tauto.
    + discriminate.
Qed.

(** X17.  How the animated viewer's [load_geometry_data] fails.  On a table
    whose columns all have [n] cells it succeeds exactly when the six labels
    it asks for are columns and the table has a row; a missing label gives
    [KeyError], naming labels asked for that are not columns; all labels
    present on a table without rows gives [IndexError] from [.iloc[0]]. *)
Theorem motion_load_outcomes (df : Table.DataFrame) (n : nat) :
  Table.rectangular df n ->
  let present := forallb (Table.has_column df) Table.motion_labels in
  ((exists r, Table.motion_load_geometry_data df = Table.Loaded r) <->
   present = true /\ (1 <= n)%nat) /\
  (present = false ->
   exists missing,
     Table.motion_load_geometry_data df
     = Table.Failed (Table.KeyError missing) /\
     missing <> [] /\
     Forall (fun l => In l Table.motion_labels /\
                      Table.has_column df l = false) missing) /\
  (present = true -> n = O ->
   Table.motion_load_geometry_data df = Table.Failed Table.IlocIndexError).
Proof.
  intros Hrect. apply (two_selections df n); exact Hrect.
Qed.

Lemma motion_load_outcomes_witness :
  exists missing,
    Table.motion_load_geometry_data
      (map (fun l => (l, [1; 2])) (firstn 5 Table.motion_labels))
    = Table.Failed (Table.KeyError missing) /\
    missing <> [].
Proof.
  assert (Hrect : Table.rectangular
                    (map (fun l => (l, [1; 2])) (firstn 5 Table.motion_labels))
                    2)
    by (repeat constructor).
  destruct (proj1 (proj2 (motion_load_outcomes _ 2 Hrect)) eq_refl)
    as (missing & Hload & Hne & _).
  exists missing. split; [exact Hload | exact Hne].
Defined.

(** ** From the table to the frames *)


